(** * django-tenants-rls: the model layer of [tenant_schemas/models.py]

    A shallow embedding of the tenant-context resolver ([get_tenant]), the
    bulk-delete aggregator ([TenantQueryset.delete]), the tenant lifecycle
    hook ([TenantMixin.save]), the model checks of [MultitenantMixin] and the
    primary-domain protocol of [DomainMixin.save], followed by the properties
    the specification states about them.

    Python values are modelled as follows: an exception is a value of [exn]
    and a call that may raise returns a [result]; [None] is [option]'s [None];
    a [dict] is a [gmap]; a database table is a [gmap] from primary key to
    row; a mutated [self] is returned next to the new database. *)

From stdpp Require Import base decidable option list strings gmap fin_maps.
From Stdlib Require Import ZArith Lia.

Local Open Scope Z_scope.

(** ** Exceptions and results *)

(** The exceptions that the modelled code can raise, each with its message. *)
Inductive exn : Type :=
| Exception (msg : string)
| AttributeError (msg : string)
| TypeError (msg : string)
| ValueError (msg : string)
| IntegrityError (msg : string).

(** The outcome of a call: a returned value or a raised exception. *)
Inductive result (A : Type) : Type :=
| Return (a : A)
| Raise (e : exn).
Arguments Return {A} a.
Arguments Raise {A} e.

Definition bind {A B : Type} (r : result A) (k : A -> result B) : result B :=
  match r with
  | Return a => k a
  | Raise e => Raise e
  end.

Notation "x <- r ;; k" := (bind r (fun x => k))
  (at level 100, r at next level, right associativity).

Definition raises {A : Type} (r : result A) : bool :=
  match r with
  | Return _ => false
  | Raise _ => true
  end.

(** ** Tenant-context resolution: [get_tenant] *)

Module Resolver.

(** A Python class, as far as [isinstance] looks at it: its name and the
    names of its proper ancestors. *)
Record PyType : Type := {
  tp_name : string;
  tp_bases : list string
}.

(** An object that can sit in [connection.tenant]: a tenant-model instance
    or any stand-in that exposes [schema_name]. *)
Record TenantObj : Type := {
  ob_type : PyType;
  pk : option Z;
  schema_name : string;
  domain_url : string
}.

(** [isinstance(o, cls)]. *)
Definition isinstance (o : TenantObj) (cls : PyType) : bool :=
  String.eqb (tp_name (ob_type o)) (tp_name cls)
  || existsb (String.eqb (tp_name cls)) (tp_bases (ob_type o)).

(** [model(schema_name=s)]: the constructor fills every other field with
    its default, unsaved. *)
Definition model_new (model : PyType) (s : string) : TenantObj :=
  {| ob_type := model; pk := None; schema_name := s; domain_url := "" |}.

(** The connection, as far as [get_tenant] reads it. *)
Record Connection : Type := {
  tenant : option TenantObj
}.

Definition no_tenant_message : string :=
  "No tenant configured in db connection, connection.tenant is none".

(** [get_tenant()], with the connection and the configured tenant model
    ([get_tenant_model()]) made explicit. *)
Definition get_tenant (model : PyType) (connection : Connection)
  : result TenantObj :=
  match tenant connection with
  | None => Raise (Exception no_tenant_message)
  | Some t =>
      Return (if isinstance t model then t else model_new model (schema_name t))
  end.

(** Sample data: a tenant model [Client] and a stand-in object that is
    not an instance of it. *)
Definition Client_type : PyType :=
  {| tp_name := "Client"; tp_bases := ["TenantMixin"; "Model"] |}.

Definition FakeTenant_type : PyType :=
  {| tp_name := "FakeTenant"; tp_bases := [] |}.

Definition fake_tenant : TenantObj :=
  {| ob_type := FakeTenant_type; pk := Some 7;
     schema_name := "acme"; domain_url := "acme.example.com" |}.

End Resolver.

(** ** Bulk delete: [TenantQueryset.delete] *)

Module TenantQueryset.

(** What one [obj.delete()] hands back when it returns: [None], or the pair
    of a row count and a [dict] of counts per model label. *)
Definition DeleteOutcome : Type := (Z * gmap string Z)%type.

(** [d.update(other)]: every key of [other] is written into [d], replacing
    the value that was there. *)
Definition dict_update (d other : gmap string Z) : gmap string Z :=
  other ∪ d.

Section Delete.
(** The entities of the queryset and the store their deletes act on. The
    per-entity [delete] is the tenant model's own method. *)
Context {Obj Store : Type}.
Variable obj_delete : Obj -> Store -> Store * result (option DeleteOutcome).

(** The [for obj in self] loop with its two accumulators. A raising
    [obj.delete()] leaves the loop at once. *)
Fixpoint delete_loop (objs : list Obj) (counter : Z)
    (counter_dict : gmap string Z) (st : Store)
  : Store * result DeleteOutcome :=
  match objs with
  | [] => (st, Return (counter, counter_dict))
  | obj :: rest =>
      match obj_delete obj st with
      | (st', Raise e) => (st', Raise e)
      | (st', Return None) => delete_loop rest counter counter_dict st'
      | (st', Return (Some (current_counter, current_counter_dict))) =>
          delete_loop rest (counter + current_counter)
            (dict_update counter_dict current_counter_dict) st'
      end
  end.

(** [TenantQueryset.delete]: the loop from [0, {}], then [if counter:]
    decides between the pair and the implicit [None]. *)
Definition delete (objs : list Obj) (st : Store)
  : Store * result (option DeleteOutcome) :=
  match delete_loop objs 0 ∅ st with
  | (st', Raise e) => (st', Raise e)
  | (st', Return (counter, counter_dict)) =>
      (st', Return (if (counter =? 0)%Z then None
                    else Some (counter, counter_dict)))
  end.
End Delete.

(** An entity whose [delete] is scripted: it records its name in the call
    log and answers with a fixed result. *)
Record Scripted : Type := {
  label : string;
  answer : result (option DeleteOutcome)
}.

Definition scripted_delete (o : Scripted) (log : list string)
  : list string * result (option DeleteOutcome) :=
  (log ++ [label o], answer o).

(** What the specification asks of the merged detail map: counts of the
    same table are added. *)
Definition merge_add (d other : gmap string Z) : gmap string Z :=
  union_with (fun a b => Some (a + b)) d other.

(** The outcomes that the entities of a batch report, in order. *)
Definition reported (objs : list Scripted) : list DeleteOutcome :=
  omap (fun o => match answer o with
                 | Return (Some out) => Some out
                 | _ => None
                 end) objs.

(** Sample entities: two whose delete reports one [customers.Client] row
    each, one whose delete raises, one whose delete reports nothing. *)
Definition client_a : Scripted :=
  {| label := "a"; answer := Return (Some (1, {[ "customers.Client" := 1 ]})) |}.
Definition client_b : Scripted :=
  {| label := "b"; answer := Return (Some (1, {[ "customers.Client" := 1 ]})) |}.
Definition client_failing : Scripted :=
  {| label := "failing";
     answer := Raise (Exception "Can not delete tenant outside its own schema") |}.
Definition client_silent : Scripted :=
  {| label := "silent"; answer := Return None |}.

End TenantQueryset.

(** ** The storage collaborator: one table with unique constraints *)

Module Storage.

(** The key the sequence hands out next: one past the largest stored. *)
Definition next_pk {Row : Type} (rows : gmap Z Row) : Z :=
  1 + foldr Z.max 0 (map_to_list rows).*1.

Section Table.
Context {Row : Type}.
(** [conflict r r'] holds when a unique constraint forbids [r] and [r']
    to be stored side by side. *)
Variable conflict : Row -> Row -> bool.

(** Some stored row other than the one being written conflicts. *)
Definition violates (pk : option Z) (r : Row) (rows : gmap Z Row) : bool :=
  bool_decide
    (map_Exists (fun k r' => Some k ≠ pk ∧ conflict r r' = true) rows).

(** [Model.save] on the table: an instance without a key is inserted
    under the next key, one with a key replaces (or creates) the row of
    that key. A unique constraint that would break raises instead. *)
Definition upsert (pk : option Z) (r : Row) (rows : gmap Z Row)
  : result (Z * gmap Z Row) :=
  if violates pk r rows then
    Raise (IntegrityError "duplicate key value violates unique constraint")
  else
    let k := default (next_pk rows) pk in
    Return (k, <[k := r]> rows).
End Table.

End Storage.

(** ** Tenant lifecycle: [TenantMixin.save] *)

Module TenantMixin.

(** A tenant instance in memory; [pk] is [None] until it is stored. *)
Record Tenant : Type := {
  pk : option Z;
  domain_url : string;
  schema_name : string
}.

(** The stored columns of a tenant. *)
Record TenantRow : Type := {
  row_domain_url : string;
  row_schema_name : string
}.

(** A [post_schema_sync] delivery: its sender and its [tenant] argument. *)
Record Signal : Type := {
  sender : string;
  payload : Tenant
}.

(** The tenant table and the signals sent so far. *)
Record World : Type := {
  tenants : gmap Z TenantRow;
  sent : list Signal
}.

Definition to_row (self : Tenant) : TenantRow :=
  {| row_domain_url := domain_url self; row_schema_name := schema_name self |}.

(** [domain_url] and [schema_name] are both declared [unique=True]. *)
Definition conflict (r r' : TenantRow) : bool :=
  String.eqb (row_domain_url r) (row_domain_url r')
  || String.eqb (row_schema_name r) (row_schema_name r').

(** [super().save()] of a call without arguments: stores the row and sets
    the key on the instance. *)
Definition Model_save (self : Tenant) (rows : gmap Z TenantRow)
  : result (Tenant * gmap Z TenantRow) :=
  kr <- Storage.upsert conflict (pk self) (to_row self) rows ;;
  Return ({| pk := Some kr.1; domain_url := domain_url self;
             schema_name := schema_name self |}, kr.2).

(** [post_schema_sync.send(sender=TenantMixin, tenant=self)]. *)
Definition post_schema_sync_send (self : Tenant) (w : World) : World :=
  {| tenants := tenants w;
     sent := sent w ++ [{| sender := "TenantMixin"; payload := self |}] |}.

(** [TenantMixin.save] called without arguments: the base save first, then
    the test of [self.pk] that guards the signal. Returns the world, [self]
    as mutated, and the outcome of the call. [TenantCall.save] below is the
    method with the base save left open. *)
Definition save (self : Tenant) (w : World) : World * Tenant * result unit :=
  match Model_save self (tenants w) with
  | Raise e => (w, self, Raise e)
  | Return (self', rows') =>
      let w' := {| tenants := rows'; sent := sent w |} in
      match pk self' with
      | None => (post_schema_sync_send self' w', self', Return tt)
      | Some _ => (w', self', Return tt)
      end
  end.

(** Saving one instance again and again, each time with the instance as
    the previous save left it. *)
Fixpoint save_repeatedly (n : nat) (self : Tenant) (w : World)
  : World * Tenant :=
  match n with
  | O => (w, self)
  | S n' => let '(w', self', _) := save self w in save_repeatedly n' self' w'
  end.

Definition acme : Tenant :=
  {| pk := None; domain_url := "acme.example.com"; schema_name := "acme" |}.

Definition empty_world : World := {| tenants := ∅; sent := [] |}.

End TenantMixin.

(** ** The check framework: [django.core.checks] *)

Module checks.

(** The level constants of the framework. *)
Definition DEBUG : Z := 10.
Definition INFO : Z := 20.
Definition WARNING : Z := 30.
Definition ERROR : Z := 40.
Definition CRITICAL : Z := 50.

(** A diagnostic. [obj] holds the name of the model it is about. *)
Record CheckMessage : Type := {
  level : Z;
  msg : string;
  hint : option string;
  obj : option string;
  id : option string
}.

(** What a name looked up in the module can be: one of the message
    classes, fixed to its level, or a plain integer. *)
Inductive member : Type :=
| MessageClass (lvl : Z)
| Int (n : Z).

(** [checks.Warning] and [checks.Critical] are classes; [checks.WARNING]
    is the level constant. *)
Definition Warning_ : member := MessageClass WARNING.
Definition Critical_ : member := MessageClass CRITICAL.
Definition WARNING_ : member := Int WARNING.

(** Calling a member with the arguments of a message: a class builds the
    message, an integer is not callable. *)
Definition call (f : member) (msg : string) (hint obj id : option string)
  : result CheckMessage :=
  match f with
  | MessageClass lvl =>
      Return {| level := lvl; msg := msg; hint := hint; obj := obj; id := id |}
  | Int _ => Raise (TypeError "'int' object is not callable")
  end.

End checks.

(** ** Model checks: [MultitenantMixin] *)

Module MultitenantMixin.
Import checks.

(** The field classes the checks tell apart. [RLSForeignKey] derives from
    [ForeignKey]; the three relation classes and [ManyToManyField] derive
    from [RelatedField]; [ForeignObjectRel] is a reverse relation, which
    [get_fields()] lists too. A many-to-many field carries what
    [remote_field.through] holds: its through model, or, when the model it
    was declared with by name could not be resolved, still that name. *)
Inductive FieldClass : Type :=
| PlainField
| ForeignKey
| OneToOneField
| RLSForeignKey
| ManyToManyField (through : Model)
| ForeignObjectRel
| ManyToManyFieldUnresolved (through : string)
with Field : Type :=
| mk_field (name : string) (cls : FieldClass)
    (primary_key unique : option bool)
with Model : Type :=
| mk_model (object_name : string) (fields : list Field)
    (unique_together : list (list string)) (auto_created : bool).

Definition name (f : Field) : string :=
  match f with mk_field n _ _ _ => n end.
Definition cls (f : Field) : FieldClass :=
  match f with mk_field _ c _ _ => c end.
(** [None] stands for an attribute the object does not have. *)
Definition primary_key (f : Field) : option bool :=
  match f with mk_field _ _ p _ => p end.
Definition unique (f : Field) : option bool :=
  match f with mk_field _ _ _ u => u end.

Definition object_name (m : Model) : string :=
  match m with mk_model n _ _ _ => n end.
Definition get_fields (m : Model) : list Field :=
  match m with mk_model _ fs _ _ => fs end.
Definition unique_together (m : Model) : list (list string) :=
  match m with mk_model _ _ u _ => u end.
Definition auto_created (m : Model) : bool :=
  match m with mk_model _ _ _ a => a end.

Definition isinstance_RLSForeignKey (f : Field) : bool :=
  match cls f with RLSForeignKey => true | _ => false end.

Definition isinstance_RelatedField (f : Field) : bool :=
  match cls f with
  | ForeignKey | OneToOneField | RLSForeignKey | ManyToManyField _
  | ManyToManyFieldUnresolved _ => true
  | PlainField | ForeignObjectRel => false
  end.

(** The through model of the field, if it is a many-to-many field, is a
    model and not a name. *)
Definition through_resolved (f : Field) : bool :=
  match cls f with
  | ManyToManyFieldUnresolved _ => false
  | _ => true
  end.

(** [getattr(field, attr, False)]. *)
Definition getattr_False (attr : option bool) : bool := default false attr.

(** [repr] of a tuple of field names, as an f-string prints it. *)
Definition repr_str (s : string) : string := "'" +:+ s +:+ "'".
Definition repr_tuple (t : list string) : string :=
  match t with
  | [x] => "(" +:+ repr_str x +:+ ",)"
  | _ => "(" +:+ String.concat ", " (map repr_str t) +:+ ")"
  end.

(** [_get_tenant_field]: the first field called [tenant], or [None]. *)
Definition _get_tenant_field (m : Model) : option Field :=
  let tenant_fields :=
    filter (fun f => name f = "tenant") (get_fields m) in
  match tenant_fields with
  | f :: _ => Some f
  | [] => None
  end.

(** [_run_check_tenant_field]. *)
Definition _run_check_tenant_field (m : Model) : result (list CheckMessage) :=
  let tenant_field := _get_tenant_field m in
  let object_name := object_name m in
  match tenant_field with
  | None =>
      c <- call Critical_
             ("tenant field not present in " +:+ object_name)
             None (Some object_name)
             (Some ("tenant_schemas." +:+ object_name +:+ ".tenant_field.C001")) ;;
      Return [c]
  | Some f =>
      if negb (isinstance_RLSForeignKey f) then
        w <- call WARNING_
               ("tenant field isn't instance of RLSForeignKey in "
                  +:+ object_name)
               None (Some object_name)
               (Some ("tenant_schemas." +:+ object_name +:+ ".tenant_field.W001")) ;;
        Return [w]
      else Return []
  end.

(** The body of the loop of [_run_check_m2m_fields] for one many-to-many
    field with through model [through]. *)
Definition m2m_step (m : Model) (m2m_field : Field) (through : Model)
    (warnings : list CheckMessage) : result (list CheckMessage) :=
  let through_tenant_fields :=
    filter (fun f => name f = "tenant") (get_fields through) in
  let through_tenant_field := head through_tenant_fields in
  let through_object_name := object_name through in
  let auto_or_manual_model :=
    if auto_created through then "auto-created" else "manual" in
  match through_tenant_field with
  | None =>
      w <- call Warning_
             ("tenant field not present in Many2Many " +:+ auto_or_manual_model
                +:+ " model: " +:+ through_object_name)
             (Some ("Use custom defined model for through property in Many2Many field "
                      +:+ object_name m +:+ "." +:+ name m2m_field
                      +:+ " using MultitenantMixin in the model definition"))
             None
             (Some ("tenant_schemas." +:+ through_object_name +:+ ".m2m_field.W001")) ;;
      Return (warnings ++ [w])
  | Some f =>
      if negb (isinstance_RLSForeignKey f) then
        w <- call Warning_
               ("tenant field isn't instance of RLSForeignKey in "
                  +:+ through_object_name)
               None None
               (Some ("tenant_schemas." +:+ through_object_name +:+ ".m2m_field.W002")) ;;
        Return (warnings ++ [w])
      else Return warnings
  end.

Fixpoint m2m_loop (m : Model) (all_fields : list Field)
    (warnings : list CheckMessage) : result (list CheckMessage) :=
  match all_fields with
  | [] => Return warnings
  | field :: rest =>
      match cls field with
      | ManyToManyField through =>
          warnings' <- m2m_step m field through warnings ;;
          m2m_loop m rest warnings'
      | ManyToManyFieldUnresolved _ =>
          Raise (AttributeError "'str' object has no attribute '_meta'")
      | _ => m2m_loop m rest warnings
      end
  end.

(** [_run_check_m2m_fields]. *)
Definition _run_check_m2m_fields (m : Model) : result (list CheckMessage) :=
  m2m_loop m (get_fields m) [].

(** [tenant_field.name]: reading an attribute of [None] raises. *)
Definition attr_name (tenant_field : option Field) : result string :=
  match tenant_field with
  | Some f => Return (name f)
  | None => Raise (AttributeError "'NoneType' object has no attribute 'name'")
  end.

Fixpoint unique_together_loop (object_name : string)
    (tenant_field : option Field) (uts : list (list string))
    (warnings : list CheckMessage) : result (list CheckMessage) :=
  match uts with
  | [] => Return warnings
  | unique_together :: rest =>
      tenant_name <- attr_name tenant_field ;;
      if bool_decide (tenant_name ∉ unique_together) then
        w <- call Warning_
               ("tenant field isn't in unique_together in " +:+ object_name
                  +:+ ": " +:+ repr_tuple unique_together)
               None None
               (Some ("tenant_schemas." +:+ object_name
                        +:+ ".unique_together_without_tenant.W001")) ;;
        unique_together_loop object_name tenant_field rest (warnings ++ [w])
      else unique_together_loop object_name tenant_field rest warnings
  end.

(** [_run_check_unique_together]. *)
Definition _run_check_unique_together (m : Model) : result (list CheckMessage) :=
  match unique_together m with
  | [] => Return []
  | uts =>
      unique_together_loop (object_name m) (_get_tenant_field m) uts []
  end.

Fixpoint uniques_loop (object_name : string) (all_fields : list Field)
    (warnings : list CheckMessage) : result (list CheckMessage) :=
  match all_fields with
  | [] => Return warnings
  | field :: rest =>
      if negb (isinstance_RelatedField field)
         && negb (getattr_False (primary_key field))
         && getattr_False (unique field)
      then
        w <- call Warning_
               ("Field " +:+ name field +:+ " marked as unique in " +:+ object_name
                  +:+ ". Must use unique together with the tenant_id.")
               None None
               (Some ("tenant_schemas." +:+ object_name +:+ ".unique.W001")) ;;
        uniques_loop object_name rest (warnings ++ [w])
      else uniques_loop object_name rest warnings
  end.

(** [_run_check_uniques]. *)
Definition _run_check_uniques (m : Model) : result (list CheckMessage) :=
  uniques_loop (object_name m) (get_fields m) [].

(** [check]: the framework's own diagnostics for the model, [super_check],
    extended by the four checks in turn. *)
Definition check (super_check : list CheckMessage) (m : Model)
  : result (list CheckMessage) :=
  let errors := super_check in
  e1 <- _run_check_tenant_field m ;;
  let errors := errors ++ e1 in
  e2 <- _run_check_m2m_fields m ;;
  let errors := errors ++ e2 in
  e3 <- _run_check_unique_together m ;;
  let errors := errors ++ e3 in
  e4 <- _run_check_uniques m ;;
  let errors := errors ++ e4 in
  Return errors.

(** The Critical that [_run_check_tenant_field] builds for a model. *)
Definition tenant_field_critical (object_name : string) : CheckMessage :=
  {| level := CRITICAL;
     msg := "tenant field not present in " +:+ object_name;
     hint := None;
     obj := Some object_name;
     id := Some ("tenant_schemas." +:+ object_name +:+ ".tenant_field.C001") |}.

(** Sample models. [Invoice] lost its tenant field and declares a
    two-column uniqueness; [Note] lost its tenant field only; [Order] has
    a plain foreign key called [tenant]. *)
Definition Invoice : Model :=
  mk_model "Invoice"
    [ mk_field "id" PlainField (Some true) (Some true);
      mk_field "number" PlainField (Some false) (Some false);
      mk_field "year" PlainField (Some false) (Some false) ]
    [ ["number"; "year"] ] false.

Definition Note : Model :=
  mk_model "Note"
    [ mk_field "id" PlainField (Some true) (Some true);
      mk_field "text" PlainField (Some false) (Some false) ]
    [] false.

Definition Order : Model :=
  mk_model "Order"
    [ mk_field "id" PlainField (Some true) (Some true);
      mk_field "tenant" ForeignKey (Some false) (Some false) ]
    [] false.

Definition Customer : Model :=
  mk_model "Customer"
    [ mk_field "id" PlainField (Some true) (Some true);
      mk_field "tenant" RLSForeignKey (Some false) (Some false);
      mk_field "email" PlainField (Some false) (Some true);
      mk_field "code" PlainField (Some false) (Some false) ]
    [ ["code"; "email"] ] false.

End MultitenantMixin.

(** ** Primary domains: [DomainMixin.save] *)

Module DomainMixin.

(** A domain instance in memory. [tenant] is the key of the owning
    tenant. *)
Record Domain : Type := {
  pk : option Z;
  domain : string;
  tenant : Z;
  is_primary : bool
}.

(** The stored columns of a domain. *)
Record DomainRow : Type := {
  row_domain : string;
  row_tenant : Z;
  row_is_primary : bool
}.

(** The database: the keys of the stored tenants and the domain table. *)
Record DB : Type := {
  tenants : gset Z;
  domains : gmap Z DomainRow
}.

Definition to_row (self : Domain) : DomainRow :=
  {| row_domain := domain self; row_tenant := tenant self;
     row_is_primary := is_primary self |}.

Definition set_is_primary (b : bool) (self : Domain) : Domain :=
  {| pk := pk self; domain := domain self; tenant := tenant self;
     is_primary := b |}.

Definition set_pk (k : Z) (self : Domain) : Domain :=
  {| pk := Some k; domain := domain self; tenant := tenant self;
     is_primary := is_primary self |}.

Definition demote (r : DomainRow) : DomainRow :=
  {| row_domain := row_domain r; row_tenant := row_tenant r;
     row_is_primary := false |}.

(** [domain] is declared [unique=True]. *)
Definition conflict (r r' : DomainRow) : bool :=
  String.eqb (row_domain r) (row_domain r').

(** [objects.filter(tenant=self.tenant, is_primary=True).exclude(pk=self.pk)]
    evaluated on the table as it stands. Excluding the key [None] excludes
    no row. *)
Definition domain_list (self : Domain) (rows : gmap Z DomainRow)
  : gmap Z DomainRow :=
  filter (fun kr => row_tenant kr.2 = tenant self
                    ∧ row_is_primary kr.2 = true
                    ∧ Some kr.1 ≠ pk self) rows.

(** [queryset.exists()]. *)
Definition exists_ (qs : gmap Z DomainRow) : bool :=
  bool_decide (qs ≠ ∅).

(** [domain_list.update(is_primary=False)]: the rows of the queryset are
    rewritten in place. *)
Definition update_is_primary_False (self : Domain) (rows : gmap Z DomainRow)
  : gmap Z DomainRow :=
  (demote <$> domain_list self rows) ∪ rows.

(** [super().save()] of a call without arguments, on a store that takes
    every row that breaks no constraint: the foreign key must point at a
    stored tenant, the [domain] must be free; then the row is written and
    the key set. *)
Definition Model_save (self : Domain) (db : DB) : result (Domain * DB) :=
  if bool_decide (tenant self ∈ tenants db) then
    kr <- Storage.upsert conflict (pk self) (to_row self) (domains db) ;;
    Return (set_pk kr.1 self, {| tenants := tenants db; domains := kr.2 |})
  else
    Raise (IntegrityError "insert or update violates foreign key constraint").

(** One run of a transaction: [self] as the body left it, the states the
    open transaction went through after each of its writes, the state the
    database holds once the run is over, and the outcome of the call. *)
Record Run : Type := {
  self_after : Domain;
  inside : list DB;
  committed : DB;
  outcome : result unit
}.

(** The body of [save], run on the working copy of the database. It
    returns [self] as mutated, the working copy after each write, and the
    final working copy or the exception. *)
Definition save_body (self : Domain) (db : DB)
  : Domain * list DB * result DB :=
  let primary := is_primary self || negb (exists_ (domain_list self (domains db))) in
  let self1 := set_is_primary primary self in
  let db1 :=
    if primary then
      {| tenants := tenants db;
         domains := update_is_primary_False self (domains db) |}
    else db in
  let writes1 := if primary then [db1] else [] in
  match Model_save self1 db1 with
  | Return (self2, db2) => (self2, writes1 ++ [db2], Return db2)
  | Raise e => (self1, writes1, Raise e)
  end.

(** [@transaction.atomic]: the body's writes reach the database together
    when it returns, and not at all when it raises. *)
Definition atomic (body : DB -> Domain * list DB * result DB) (db : DB) : Run :=
  match body db with
  | (self', writes, Return db') =>
      {| self_after := self'; inside := removelast writes;
         committed := db'; outcome := Return tt |}
  | (self', writes, Raise e) =>
      {| self_after := self'; inside := writes;
         committed := db; outcome := Raise e |}
  end.

(** [DomainMixin.save] called without arguments on that store.
    [DomainCall.save] below is the method with what it calls left open. *)
Definition save (self : Domain) (db : DB) : Run :=
  atomic (save_body self) db.

(** The row stored under a key is marked primary. A key without a row is
    not primary. *)
Definition primary_in (db : DB) (k : Z) : bool :=
  match domains db !! k with
  | Some r => row_is_primary r
  | None => false
  end.

(** At most one primary domain per tenant. *)
Definition at_most_one_primary (rows : gmap Z DomainRow) : Prop :=
  map_Forall (fun k1 r1 =>
    map_Forall (fun k2 r2 =>
      row_tenant r1 = row_tenant r2 ->
      row_is_primary r1 = true -> row_is_primary r2 = true -> k1 = k2) rows) rows.

(** Every tenant that owns a domain owns a primary one. *)
Definition some_primary (rows : gmap Z DomainRow) : Prop :=
  map_Forall (fun _ r =>
    map_Exists (fun _ r' =>
      row_tenant r' = row_tenant r ∧ row_is_primary r' = true) rows) rows.

(** The invariant of the domain table. *)
Definition one_primary_per_tenant (db : DB) : Prop :=
  at_most_one_primary (domains db) ∧ some_primary (domains db).

#[global] Instance at_most_one_primary_dec rows : Decision (at_most_one_primary rows).
Proof. unfold at_most_one_primary. apply _. Defined.

#[global] Instance some_primary_dec rows : Decision (some_primary rows).
Proof. unfold some_primary. apply _. Defined.

#[global] Instance one_primary_per_tenant_dec db : Decision (one_primary_per_tenant db).
Proof. unfold one_primary_per_tenant. apply _. Defined.

(** The flag that [save] computes for [self], and the table as the open
    transaction holds it just before [self] is written. *)
Definition primary_after (self : Domain) (db : DB) : bool :=
  is_primary self || negb (exists_ (domain_list self (domains db))).

Definition rows_before_write (self : Domain) (db : DB) : gmap Z DomainRow :=
  if primary_after self db then update_is_primary_False self (domains db)
  else domains db.

(** No stored row other than [self]'s own holds [self.domain]. *)
Definition domain_free (self : Domain) (db : DB) : Prop :=
  map_Forall (fun k r => Some k ≠ pk self -> row_domain r ≠ domain self)
    (domains db).

#[global] Instance domain_free_dec self db : Decision (domain_free self db).
Proof. unfold domain_free. apply _. Defined.

(** Some row other than [self]'s own is a primary domain of [self.tenant]. *)
Definition other_primary_exists (self : Domain) (db : DB) : Prop :=
  ∃ k r, domains db !! k = Some r
         ∧ row_tenant r = tenant self ∧ row_is_primary r = true
         ∧ Some k ≠ pk self.

(** The tenant owns no domain at all. *)
Definition no_domain_of (t : Z) (db : DB) : Prop :=
  map_Forall (fun _ r => row_tenant r ≠ t) (domains db).

#[global] Instance no_domain_of_dec t db : Decision (no_domain_of t db).
Proof. unfold no_domain_of. apply _. Defined.

(** Sample data: tenant 1 owns a primary and a secondary domain, tenant 2
    owns a primary domain, tenant 3 owns none. *)
Definition sample_db : DB :=
  {| tenants := {[ 1; 2; 3 ]};
     domains :=
       {[ 1 := {| row_domain := "a.example.com"; row_tenant := 1;
                  row_is_primary := true |};
          2 := {| row_domain := "b.example.com"; row_tenant := 1;
                  row_is_primary := false |};
          3 := {| row_domain := "c.example.com"; row_tenant := 2;
                  row_is_primary := true |} ]} |}.

(** The stored primary domain of tenant 1, loaded and moved to tenant 2. *)
Definition moved : Domain :=
  {| pk := Some 1; domain := "a.example.com"; tenant := 2;
     is_primary := false |}.

(** The stored secondary domain of tenant 1, loaded and made primary. *)
Definition promoted : Domain :=
  {| pk := Some 2; domain := "b.example.com"; tenant := 1;
     is_primary := true |}.

(** The stored secondary domain of tenant 1, loaded and moved to
    tenant 2. *)
Definition moved_secondary : Domain :=
  {| pk := Some 2; domain := "b.example.com"; tenant := 2;
     is_primary := false |}.

(** A new primary domain for tenant 1. *)
Definition new_primary : Domain :=
  {| pk := None; domain := "n.example.com"; tenant := 1;
     is_primary := true |}.

(** A first domain for tenant 3, not asked to be primary. *)
Definition first_domain : Domain :=
  {| pk := None; domain := "z.example.com"; tenant := 3;
     is_primary := false |}.

End DomainMixin.

(** ** Template tags: [templatetags/tenant.py] *)

Module templatetags.

(** The exceptions of the tag helpers. *)
Inductive tag_exn : Type :=
| IndexError (msg : string)
| KeyError (key : string)
| Propagated (msg : string).

(** [s.split(sep)] for a one-character separator: the pieces between the
    separators, empty pieces included; never the empty list. *)
Fixpoint split (sep : Ascii.ascii) (s : string) : list string :=
  match s with
  | EmptyString => [EmptyString]
  | String a rest =>
      if Ascii.eqb a sep then EmptyString :: split sep rest
      else match split sep rest with
           | p :: ps => String a p :: ps
           | [] => [String a EmptyString]
           end
  end.

(** [l[-1]]. *)
Definition item_last (l : list string) : tag_exn + string :=
  match last l with
  | Some x => inr x
  | None => inl (IndexError "list index out of range")
  end.

(** What [import_string(path)] does: it returns an object, of which only
    the [name] attribute matters ([None] when it has none), raises
    [ImportError], or raises something else. *)
Inductive imported : Type :=
| Object (name_attr : option string)
| ImportError
| OtherError (msg : string).

(** The dot, U+002E. *)
Definition dot : Ascii.ascii := Ascii.ascii_of_nat 46.

Section Tags.
Variable import_string : string -> imported.

(** [get_app_label]. The [lru_cache] around it only saves repeated
    imports. *)
Definition get_app_label (s : string) : tag_exn + string :=
  match item_last (split dot s) with
  | inl e => inl e
  | inr candidate =>
      match import_string s with
      | Object (Some n) => inr n
      | Object None => inr candidate
      | ImportError => inr candidate
      | OtherError msg => inl (Propagated msg)
      end
  end.

(** [[get_app_label(_app) for _app in apps]]. *)
Fixpoint app_labels (apps : list string) : tag_exn + list string :=
  match apps with
  | [] => inr []
  | a :: rest =>
      match get_app_label a with
      | inl e => inl e
      | inr l =>
          match app_labels rest with
          | inl e => inl e
          | inr ls => inr (l :: ls)
          end
      end
  end.

(** [app["app_label"] in [get_app_label(_app) for _app in apps]]: the body
    shared by [is_shared_app] (over [settings.SHARED_APPS]) and
    [is_tenant_app] (over [settings.TENANT_APPS]). The subscript is
    evaluated first. *)
Definition app_in (app : gmap string string) (apps : list string)
  : tag_exn + bool :=
  match app !! "app_label" with
  | None => inl (KeyError "app_label")
  | Some l =>
      match app_labels apps with
      | inl e => inl e
      | inr ls => inr (bool_decide (l ∈ ls))
      end
  end.

Definition is_shared_app (SHARED_APPS : list string) (app : gmap string string)
  : tag_exn + bool :=
  app_in app SHARED_APPS.

Definition is_tenant_app (TENANT_APPS : list string) (app : gmap string string)
  : tag_exn + bool :=
  app_in app TENANT_APPS.
End Tags.

(** An importer under which nothing can be imported. *)
Definition no_import (s : string) : imported := ImportError.

End templatetags.

(** ** Vocabulary of the properties *)

Module Report.
Import checks MultitenantMixin.

(** The warning of the composite-uniqueness check for one constraint. *)
Definition unique_together_warning (object_name : string) (ut : list string)
  : CheckMessage :=
  {| level := WARNING;
     msg := "tenant field isn't in unique_together in " +:+ object_name
              +:+ ": " +:+ repr_tuple ut;
     hint := None; obj := None;
     id := Some ("tenant_schemas." +:+ object_name
                   +:+ ".unique_together_without_tenant.W001") |}.

(** The warning of the single-column check for one field. *)
Definition unique_warning (object_name : string) (f : Field) : CheckMessage :=
  {| level := WARNING;
     msg := "Field " +:+ name f +:+ " marked as unique in " +:+ object_name
              +:+ ". Must use unique together with the tenant_id.";
     hint := None; obj := None;
     id := Some ("tenant_schemas." +:+ object_name +:+ ".unique.W001") |}.

(** A field that is unique on its own: not a relation, not the key. *)
Definition bare_unique (f : Field) : bool :=
  negb (isinstance_RelatedField f)
  && negb (getattr_False (primary_key f))
  && getattr_False (unique f).

(** The warning of the many-to-many check for one field, if it gives one:
    [W001] when the through model has no field called [tenant], [W002] when
    its first such field is not an [RLSForeignKey]. *)
Definition m2m_warning (m : Model) (f : Field) : option CheckMessage :=
  match cls f with
  | ManyToManyField through =>
      match _get_tenant_field through with
      | None =>
          Some {| level := WARNING;
                  msg := "tenant field not present in Many2Many "
                           +:+ (if auto_created through then "auto-created"
                                else "manual")
                           +:+ " model: " +:+ object_name through;
                  hint := Some ("Use custom defined model for through property in Many2Many field "
                                  +:+ object_name m +:+ "." +:+ name f
                                  +:+ " using MultitenantMixin in the model definition");
                  obj := None;
                  id := Some ("tenant_schemas." +:+ object_name through
                                +:+ ".m2m_field.W001") |}
      | Some tf =>
          if isinstance_RLSForeignKey tf then None
          else
            Some {| level := WARNING;
                    msg := "tenant field isn't instance of RLSForeignKey in "
                             +:+ object_name through;
                    hint := None; obj := None;
                    id := Some ("tenant_schemas." +:+ object_name through
                                  +:+ ".m2m_field.W002") |}
      end
  | _ => None
  end.

(** Every many-to-many field of the list has a resolved through model. *)
Definition all_resolved (fs : list Field) : bool :=
  forallb through_resolved fs.

(** What the many-to-many check raises on an unresolved through model. *)
Definition unresolved_error : exn :=
  AttributeError "'str' object has no attribute '_meta'".

(** The diagnostics of a list that are Criticals. *)
Definition criticals (errs : list CheckMessage) : list CheckMessage :=
  filter (fun c => level c = CRITICAL) errs.

(** A model with a many-to-many field through an auto-created table. *)
Definition Tagging : Model :=
  mk_model "Article_tags"
    [ mk_field "id" PlainField (Some true) (Some true);
      mk_field "article" ForeignKey (Some false) (Some false);
      mk_field "tag" ForeignKey (Some false) (Some false) ]
    [] true.

Definition Article : Model :=
  mk_model "Article"
    [ mk_field "id" PlainField (Some true) (Some true);
      mk_field "tenant" RLSForeignKey (Some false) (Some false);
      mk_field "slug" PlainField (Some false) (Some true);
      mk_field "tags" (ManyToManyField Tagging) (Some false) (Some false) ]
    [ ["tenant"; "slug"]; ["slug"; "id"] ] false.

(** A model whose many-to-many field names a through model that does not
    exist. *)
Definition Shelf : Model :=
  mk_model "Shelf"
    [ mk_field "id" PlainField (Some true) (Some true);
      mk_field "tenant" RLSForeignKey (Some false) (Some false);
      mk_field "books" (ManyToManyFieldUnresolved "library.Missing")
        (Some false) (Some false) ]
    [] false.

End Report.

Module Aggregate.
Import TenantQueryset.

(** The sum of a list of counts. *)
Definition total (counts : list Z) : Z := foldr Z.add 0 counts.

(** No table name occurs in two of the detail maps. *)
Fixpoint tables_disjoint (ds : list (gmap string Z)) : Prop :=
  match ds with
  | [] => True
  | d :: rest => Forall (fun d' => d ##ₘ d') rest ∧ tables_disjoint rest
  end.

(** The entity's delete returns [None]. *)
Definition silent (o : Scripted) : Prop := answer o = Return None.

#[global] Instance silent_dec o : Decision (silent o).
Proof.
  unfold silent. destruct (answer o) as [[out|]|e].
  - right; discriminate.
  - left; reflexivity.
  - right; discriminate.
Defined.

Definition client_c : Scripted :=
  {| label := "c";
     answer := Return (Some (3, {[ "customers.Client" := 1;
                                   "customers.Domain" := 2 ]})) |}.

Definition invoice_d : Scripted :=
  {| label := "d"; answer := Return (Some (2, {[ "billing.Invoice" := 2 ]})) |}.

End Aggregate.

Module Uniqueness.

(** No two tenant rows share a [schema_name] or a [domain_url]. *)
Definition tenants_unique (rows : gmap Z TenantMixin.TenantRow) : Prop :=
  ∀ k1 k2 r1 r2, rows !! k1 = Some r1 -> rows !! k2 = Some r2 -> k1 ≠ k2 ->
    TenantMixin.row_schema_name r1 ≠ TenantMixin.row_schema_name r2
    ∧ TenantMixin.row_domain_url r1 ≠ TenantMixin.row_domain_url r2.

(** No two domain rows share a [domain]. *)
Definition domains_unique (rows : gmap Z DomainMixin.DomainRow) : Prop :=
  ∀ k1 k2 r1 r2, rows !! k1 = Some r1 -> rows !! k2 = Some r2 -> k1 ≠ k2 ->
    DomainMixin.row_domain r1 ≠ DomainMixin.row_domain r2.

(** A second tenant for the sample world. *)
Definition globex : TenantMixin.Tenant :=
  {| TenantMixin.pk := None; TenantMixin.domain_url := "globex.example.com";
     TenantMixin.schema_name := "globex" |}.

Definition acme_world : TenantMixin.World :=
  {| TenantMixin.tenants := {[ 1 := TenantMixin.to_row TenantMixin.acme ]};
     TenantMixin.sent := [] |}.


(** A new secondary domain for tenant 1, which has a primary. *)
Definition new_secondary : DomainMixin.Domain :=
  {| DomainMixin.pk := None; DomainMixin.domain := "s.example.com";
     DomainMixin.tenant := 1; DomainMixin.is_primary := false |}.

End Uniqueness.

(** ** [DomainMixin.save] with what it calls left open *)

Module DomainCall.
Import DomainMixin.

(** What one call of [save] reaches outside this file: the evaluation of
    [self.tenant], which answers with an exception when the related tenant
    has to be fetched and cannot be; the base save with the arguments of
    the call, forwarded unchanged to [super().save]; and the commit of the
    transaction, where the store may still refuse what was written. *)
Record Collaborators : Type := {
  fetch_tenant : Domain -> DB -> option exn;
  super_save : Domain -> DB -> result (Domain * DB);
  commit_check : DB -> option exn
}.

(** The database server during a call: what is stored, which is what every
    other connection reads, and the working copy of the open transaction,
    if one is open. *)
Record Server : Type := {
  stored : DB;
  pending : option DB
}.

(** One call: [self] as the call left it, the states the server went
    through, the database once the call is over, and the outcome. *)
Record Execution : Type := {
  ex_self : Domain;
  ex_steps : list Server;
  ex_db : DB;
  ex_outcome : result unit
}.

(** The body of [save] on the working copy. It returns [self] as mutated,
    the working copy after each write, and the final working copy or the
    exception. *)
Definition save_body (c : Collaborators) (self : Domain) (db : DB)
  : Domain * list DB * result DB :=
  match fetch_tenant c self db with
  | Some e => (self, [], Raise e)
  | None =>
      let primary :=
        is_primary self || negb (exists_ (domain_list self (domains db))) in
      let self1 := set_is_primary primary self in
      let db1 :=
        if primary then
          {| tenants := tenants db;
             domains := update_is_primary_False self (domains db) |}
        else db in
      let writes1 := if primary then [db1] else [] in
      match super_save c self1 db1 with
      | Return (self2, db2) => (self2, writes1 ++ [db2], Return db2)
      | Raise e => (self1, writes1, Raise e)
      end
  end.

(** [@transaction.atomic] around a body: the transaction is opened, the
    writes of the body go to its working copy, and what is stored changes
    only at the end, to the final working copy when the body returned and
    the commit went through, and not at all otherwise. *)
Definition atomic (commit : DB -> option exn)
    (body : DB -> Domain * list DB * result DB) (db : DB) : Execution :=
  let '(self', writes, res) := body db in
  let opened :=
    {| stored := db; pending := Some db |}
      :: map (fun w => {| stored := db; pending := Some w |}) writes in
  let rolled_back := {| stored := db; pending := None |} in
  match res with
  | Return db' =>
      match commit db' with
      | None =>
          {| ex_self := self';
             ex_steps := opened ++ [{| stored := db'; pending := None |}];
             ex_db := db'; ex_outcome := Return tt |}
      | Some e =>
          {| ex_self := self'; ex_steps := opened ++ [rolled_back];
             ex_db := db; ex_outcome := Raise e |}
      end
  | Raise e =>
      {| ex_self := self'; ex_steps := opened ++ [rolled_back];
         ex_db := db; ex_outcome := Raise e |}
  end.

(** [DomainMixin.save]. *)
Definition save (c : Collaborators) (self : Domain) (db : DB) : Execution :=
  atomic (commit_check c) (save_body c self) db.

(** A base save that, when it returns, has written the whole row of the
    instance under the key of the instance, or under a key that was not in
    use when the instance had none, and has set that key on the instance:
    what [Model.save] does when called without [update_fields]. *)
Definition stores_row (base : Domain -> DB -> result (Domain * DB)) : Prop :=
  ∀ self db self' db', base self db = Return (self', db') ->
    ∃ k, self' = set_pk k self
         ∧ db' = {| tenants := tenants db;
                    domains := <[k := to_row self]> (domains db) |}
         ∧ (pk self = Some k ∨ (pk self = None ∧ domains db !! k = None)).

(** The collaborators of a call without arguments on the store of
    [DomainMixin.Model_save]: the tenant is at hand, the commit goes
    through. *)
Definition plain : Collaborators :=
  {| fetch_tenant := fun _ _ => None;
     super_save := Model_save;
     commit_check := fun _ => None |}.

(** The save would take the primary domain of a tenant away from it while
    the tenant keeps other domains: the row of [self] is stored as the
    primary domain of another tenant than [self.tenant], and that tenant
    has a second row. *)
Definition strands_tenant (self : Domain) (db : DB) : Prop :=
  ∃ k r j r',
    pk self = Some k ∧ domains db !! k = Some r
    ∧ row_is_primary r = true ∧ row_tenant r ≠ tenant self
    ∧ j ≠ k ∧ domains db !! j = Some r' ∧ row_tenant r' = row_tenant r.

End DomainCall.

(** ** [TenantMixin.save] with the base save left open *)

Module TenantCall.
Import TenantMixin.

Section Call.
(** [super().save] with the arguments of the call, which [save] forwards
    unchanged. *)
Variable super_save
  : Tenant -> gmap Z TenantRow -> result (Tenant * gmap Z TenantRow).

(** [TenantMixin.save]. *)
Definition save (self : Tenant) (w : World) : World * Tenant * result unit :=
  match super_save self (tenants w) with
  | Raise e => (w, self, Raise e)
  | Return (self', rows') =>
      let w' := {| tenants := rows'; sent := sent w |} in
      match pk self' with
      | None => (post_schema_sync_send self' w', self', Return tt)
      | Some _ => (w', self', Return tt)
      end
  end.

(** The same call made [n] times in a row on one instance, each time on
    the instance and the world as the call before left them. *)
Fixpoint save_times (n : nat) (self : Tenant) (w : World) : World * Tenant :=
  match n with
  | O => (w, self)
  | S n' => let '(w', self', _) := save self w in save_times n' self' w'
  end.
End Call.

(** A base save that never returns leaving the instance without a key. *)
Definition sets_key
    (base : Tenant -> gmap Z TenantRow -> result (Tenant * gmap Z TenantRow))
  : Prop :=
  ∀ self rows self' rows',
    base self rows = Return (self', rows') -> pk self' ≠ None.

(** [Model.save(update_fields=[])]: it returns at once, nothing is written
    and the instance is left as it is. *)
Definition skip_save (self : Tenant) (rows : gmap Z TenantRow)
  : result (Tenant * gmap Z TenantRow) :=
  Return (self, rows).

End TenantCall.

Module Labels.

(** The character occurs in the string. *)
Fixpoint contains (c : Ascii.ascii) (s : string) : bool :=
  match s with
  | EmptyString => false
  | String a rest => Ascii.eqb a c || contains c rest
  end.

(** The text after the last dot of a dotted path, the whole path when it
    has no dot. *)
Definition last_component (s : string) : string :=
  default EmptyString (last (templatetags.split templatetags.dot s)).

(** An importer that knows one application configuration and fails on
    everything else. *)
Definition one_config (s : string) : templatetags.imported :=
  if String.eqb s "customers.apps.CustomersConfig"
  then templatetags.Object (Some "customers")
  else templatetags.ImportError.

End Labels.

(** * Properties *)

(** ** Tenant-context resolution *)

Section ResolverFacts.
Import Resolver.

Lemma isinstance_model_new (model : PyType) (s : string) :
  isinstance (model_new model s) model = true.
Proof.
  unfold isinstance, model_new; simpl.
  by rewrite String.eqb_refl.
Qed.

(** C7. With no tenant bound to the connection, [get_tenant] raises the
    no-tenant exception, whatever the configured model; it returns no
    tenant at all, hence no default or first one. *)
Theorem get_tenant_unbound_raises (model : PyType) (connection : Connection) :
  tenant connection = None ->
  get_tenant model connection = Raise (Exception no_tenant_message)
  ∧ ∀ t, get_tenant model connection ≠ Return t.
Proof.
  intros Hnone. unfold get_tenant. rewrite Hnone. split; [done|].
  intros t Ht. discriminate Ht.
Qed.

(** C10. With a tenant bound, [get_tenant] returns an instance of the
    configured model: the bound object itself when it is one, and else a
    new instance that has the bound object's [schema_name] and the
    defaults everywhere else. *)
Theorem get_tenant_bound_returns_model_instance
    (model : PyType) (connection : Connection) (t : TenantObj) :
  tenant connection = Some t ->
  ∃ r, get_tenant model connection = Return r
       ∧ isinstance r model = true
       ∧ (isinstance t model = true -> r = t)
       ∧ (isinstance t model = false ->
            r = model_new model (schema_name t)
            ∧ ob_type r = model
            ∧ schema_name r = schema_name t
            ∧ domain_url r = ""
            ∧ pk r = None).
Proof.
  intros Hsome. unfold get_tenant. rewrite Hsome.
  destruct (isinstance t model) eqn:Hinst.
  - exists t. repeat split; try done.
  - exists (model_new model (schema_name t)).
    split; [done|]. split; [apply isinstance_model_new|].
    split; [done|]. intros _. by repeat split.
Qed.
End ResolverFacts.

Section ResolverWitnesses.
Import Resolver.

Lemma get_tenant_unbound_raises_witness :
tenant {| tenant := None |} = None
∧ (get_tenant Client_type {| tenant := None |}
     = Raise (Exception no_tenant_message)
   ∧ ∀ t, get_tenant Client_type {| tenant := None |} ≠ Return t).
Proof.
split; [reflexivity|].
apply (get_tenant_unbound_raises Client_type {| tenant := None |}).
reflexivity.
Defined.

Lemma get_tenant_bound_returns_model_instance_witness :
tenant {| tenant := Some fake_tenant |} = Some fake_tenant
∧ ∃ r, get_tenant Client_type {| tenant := Some fake_tenant |} = Return r
       ∧ isinstance r Client_type = true
       ∧ (isinstance fake_tenant Client_type = true -> r = fake_tenant)
       ∧ (isinstance fake_tenant Client_type = false ->
            r = model_new Client_type (schema_name fake_tenant)
            ∧ ob_type r = Client_type
            ∧ schema_name r = schema_name fake_tenant
            ∧ domain_url r = ""
            ∧ pk r = None).
Proof.
split; [reflexivity|].
apply (get_tenant_bound_returns_model_instance Client_type
         {| tenant := Some fake_tenant |} fake_tenant).
reflexivity.
Defined.

End ResolverWitnesses.

(** ** Bulk delete *)

Section DeleteFacts.
Import TenantQueryset.
Context {Obj Store : Type}.
Variable obj_delete : Obj -> Store -> Store * result (option DeleteOutcome).

(** The loop over a concatenation runs the first part and, unless that
    raised, goes on with the second part from where the first stopped. *)
Lemma delete_loop_app (pre post : list Obj) counter counter_dict st :
  delete_loop obj_delete (pre ++ post) counter counter_dict st =
  match delete_loop obj_delete pre counter counter_dict st with
  | (st1, Return (c, d)) => delete_loop obj_delete post c d st1
  | (st1, Raise e) => (st1, Raise e)
  end.
Proof.
  revert counter counter_dict st.
  induction pre as [|obj pre IH]; intros counter counter_dict st; simpl.
  - done.
  - destruct (obj_delete obj st) as [st' [[[c d]|]|e]]; auto.
Qed.

(** C8. When the delete of some entity of the batch raises (the entities
    before it having been deleted without raising), [delete] raises that
    same exception: it returns no aggregated outcome, and the entities
    after the failing one are not touched. *)
Theorem delete_propagates_failure
    (pre post : list Obj) (obj : Obj) (st st1 st2 : Store)
    (acc : DeleteOutcome) (e : exn) :
  delete_loop obj_delete pre 0 ∅ st = (st1, Return acc) ->
  obj_delete obj st1 = (st2, Raise e) ->
  delete obj_delete (pre ++ obj :: post) st = (st2, Raise e)
  ∧ ∀ out, (delete obj_delete (pre ++ obj :: post) st).2 ≠ Return out.
Proof.
  intros Hpre Hobj.
  assert (delete obj_delete (pre ++ obj :: post) st = (st2, Raise e)) as Hd.
  { unfold delete. rewrite delete_loop_app, Hpre.
    destruct acc as [c d]. simpl. by rewrite Hobj. }
  split; [done|]. intros out. rewrite Hd. simpl. discriminate.
Qed.

(** A batch that is deleted without raising yields [None] exactly when the
    summed counter is zero. *)
Lemma delete_absent_iff_zero (objs : list Obj) st st' counter counter_dict :
  delete_loop obj_delete objs 0 ∅ st = (st', Return (counter, counter_dict)) ->
  delete obj_delete objs st =
    (st', Return (if (counter =? 0)%Z then None else Some (counter, counter_dict))).
Proof. intros H. unfold delete. by rewrite H. Qed.
End DeleteFacts.

Section ScriptedFacts.
Import TenantQueryset.

(** On a batch in which no delete raises, the loop adds up the counters
    and folds the detail maps with [dict_update]. *)
Lemma delete_loop_scripted (objs : list Scripted) counter counter_dict log :
  Forall (fun o => raises (answer o) = false) objs ->
  delete_loop scripted_delete objs counter counter_dict log =
    ((log ++ map label objs)%list,
     Return (foldl Z.add counter (reported objs).*1,
             foldl dict_update counter_dict (reported objs).*2)).
Proof.
  intros Hall. revert counter counter_dict log.
  induction Hall as [|o objs Ho _ IH]; intros counter counter_dict log; simpl.
  - by rewrite app_nil_r.
  - unfold reported in *. destruct o as [l [[[c d]|]|e]]; simpl in *;
      try discriminate; rewrite IH, <- app_assoc; done.
Qed.

(** C2, on the code: two entities whose deletes each report one row of
    [customers.Client]. The summed counter is 2, but the detail map of the
    result holds 1 for that table, where adding the counts gives 2. *)
Theorem delete_detail_not_added :
  delete scripted_delete [client_a; client_b] [] =
    (["a"; "b"], Return (Some (2, {[ "customers.Client" := 1 ]})))
  ∧ merge_add {[ "customers.Client" := 1 ]} {[ "customers.Client" := 1 ]}
      = {[ "customers.Client" := 2 ]}
  ∧ ({[ "customers.Client" := 1 ]} : gmap string Z) ≠ {[ "customers.Client" := 2 ]}.
Proof.
  split; [vm_compute; reflexivity|].
  split; [vm_compute; reflexivity|].
  intros Heq.
  assert (({[ "customers.Client" := 1 ]} : gmap string Z) !! "customers.Client"
          = Some 2) as Hl by (rewrite Heq; apply lookup_singleton_eq).
  rewrite lookup_singleton_eq in Hl. discriminate Hl.
Qed.

Lemma delete_propagates_failure_witness :
  delete_loop scripted_delete [client_a] 0 ∅ [] =
    (["a"], Return (1, {[ "customers.Client" := 1 ]}))
  ∧ scripted_delete client_failing ["a"] =
      (["a"; "failing"],
       Raise (Exception "Can not delete tenant outside its own schema"))
  ∧ (delete scripted_delete ([client_a] ++ client_failing :: [client_b]) [] =
       (["a"; "failing"],
        Raise (Exception "Can not delete tenant outside its own schema"))
     ∧ ∀ out, (delete scripted_delete
                 ([client_a] ++ client_failing :: [client_b]) []).2 ≠ Return out).
Proof.
  split; [vm_compute; reflexivity|].
  split; [reflexivity|].
  apply (delete_propagates_failure scripted_delete [client_a] [client_b]
           client_failing [] ["a"] ["a"; "failing"]
           (1, {[ "customers.Client" := 1 ]})
           (Exception "Can not delete tenant outside its own schema")).
  - vm_compute; reflexivity.
  - reflexivity.
Defined.
End ScriptedFacts.

(** ** Tenant lifecycle *)

Section LifecycleFacts.
Import TenantMixin.

(** A base save that returns has set the key of the instance. *)
Lemma Model_save_sets_pk (self self' : Tenant) (rows rows' : gmap Z TenantRow) :
  Model_save self rows = Return (self', rows') ->
  ∃ k, pk self' = Some k ∧ rows' !! k = Some (to_row self).
Proof.
  unfold Model_save, Storage.upsert.
  destruct (Storage.violates conflict (pk self) (to_row self) rows); simpl;
    [discriminate|].
  intros [= <- <-]. eexists. split; [reflexivity|]. apply lookup_insert_eq.
Qed.

(** Whatever the instance and the world, a [save] without arguments leaves
    the list of sent signals as it was: the test of [self.pk] comes after
    the base save, which has set the key by then. *)
Lemma save_never_sends (self : Tenant) (w : World) :
  sent (save self w).1.1 = sent w.
Proof.
  unfold save.
  destruct (Model_save self (tenants w)) as [[self' rows']|e] eqn:Hs; [|done].
  destruct (Model_save_sets_pk _ _ _ _ Hs) as (k & Hk & _).
  by rewrite Hk.
Qed.

(** C1, on the code: the first save of a tenant that has no key yet. The
    save succeeds and stores the row under key 1, the instance has the key
    afterwards, and no signal has been sent. *)
Theorem first_save_sends_no_signal :
  pk acme = None
  ∧ save acme empty_world =
      ({| tenants := {[ 1 := to_row acme ]}; sent := [] |},
       {| pk := Some 1; domain_url := "acme.example.com"; schema_name := "acme" |},
       Return tt).
Proof. split; [reflexivity|]. vm_compute. reflexivity. Qed.
End LifecycleFacts.

(** ** Model checks *)

Section CheckFacts.
Import checks MultitenantMixin.

(** On resolved through models the many-to-many check only builds
    warnings: it returns. *)
Lemma m2m_loop_returns (m : Model) (all_fields : list Field)
    (warnings : list CheckMessage) :
  Forall (fun f => through_resolved f = true) all_fields ->
  ∃ ws, m2m_loop m all_fields warnings = Return ws.
Proof.
  intros Hres. revert warnings.
  induction Hres as [|f rest Hf _ IH]; intros warnings; simpl.
  - by eexists.
  - unfold through_resolved in Hf.
    destruct (cls f) as [| | | |through| |through]; try apply IH;
      [|discriminate Hf].
    unfold m2m_step.
    destruct (head _) as [tf|]; simpl; [|apply IH].
    destruct (negb _); simpl; apply IH.
Qed.

(** So does the single-column check. *)
Lemma uniques_loop_returns (object_name : string) (all_fields : list Field)
    (warnings : list CheckMessage) :
  ∃ ws, uniques_loop object_name all_fields warnings = Return ws.
Proof.
  revert warnings. induction all_fields as [|f rest IH]; intros warnings; simpl.
  - by eexists.
  - destruct (_ && _); simpl; apply IH.
Qed.

(** Without a tenant field, [_run_check_tenant_field] returns exactly the
    Critical that names the model. *)
Lemma tenant_field_check_critical (m : Model) :
  _get_tenant_field m = None ->
  _run_check_tenant_field m = Return [tenant_field_critical (object_name m)].
Proof. intros H. unfold _run_check_tenant_field. by rewrite H. Qed.

(** A model without tenant field that declares any [unique_together] makes
    [check] raise [AttributeError]. *)
Lemma check_raises_without_tenant_field (super_check : list CheckMessage) (m : Model) :
  Forall (fun f => through_resolved f = true) (get_fields m) ->
  _get_tenant_field m = None ->
  unique_together m ≠ [] ->
  check super_check m =
    Raise (AttributeError "'NoneType' object has no attribute 'name'").
Proof.
  intros Hres Hnone Hne. unfold check.
  rewrite (tenant_field_check_critical m Hnone). simpl.
  unfold _run_check_m2m_fields.
  destruct (m2m_loop_returns m (get_fields m) [] Hres) as [ws ->]. simpl.
  unfold _run_check_unique_together. rewrite Hnone.
  destruct (unique_together m) as [|ut uts]; [done|]. reflexivity.
Qed.

(** A model whose tenant field is not an [RLSForeignKey] makes [check]
    raise [TypeError]. *)
Lemma check_raises_on_wrong_type (super_check : list CheckMessage) (m : Model)
    (f : Field) :
  _get_tenant_field m = Some f ->
  isinstance_RLSForeignKey f = false ->
  check super_check m = Raise (TypeError "'int' object is not callable").
Proof.
  intros Hsome Hty. unfold check, _run_check_tenant_field.
  rewrite Hsome, Hty. reflexivity.
Qed.

(** A model without tenant field and without [unique_together] gets its
    Critical, right after the framework's own diagnostics. *)
Lemma check_returns_critical (super_check : list CheckMessage) (m : Model) :
  Forall (fun f => through_resolved f = true) (get_fields m) ->
  _get_tenant_field m = None ->
  unique_together m = [] ->
  ∃ rest, check super_check m =
            Return (super_check ++ tenant_field_critical (object_name m) :: rest).
Proof.
  intros Hres Hnone Hut. unfold check.
  rewrite (tenant_field_check_critical m Hnone). simpl.
  unfold _run_check_m2m_fields.
  destruct (m2m_loop_returns m (get_fields m) [] Hres) as [ws ->]. simpl.
  unfold _run_check_unique_together. rewrite Hut. simpl.
  unfold _run_check_uniques.
  destruct (uniques_loop_returns (object_name m) (get_fields m) []) as [us ->].
  simpl. exists (ws ++ us)%list.
  f_equal. rewrite <- !app_assoc. reflexivity.
Qed.

(** C3, on the code: two models on which [check] raises instead of
    returning diagnostics. [Order] has a tenant field of the wrong type;
    [Invoice] has no tenant field and declares a two-column uniqueness. *)
Theorem check_raises_on_invalid_models :
  check [] Order = Raise (TypeError "'int' object is not callable")
  ∧ check [] Invoice =
      Raise (AttributeError "'NoneType' object has no attribute 'name'").
Proof. split; vm_compute; reflexivity. Qed.

(** C9, on the code: [Invoice] has no field called [tenant], and the tenant
    field check builds the Critical that names it; [check] on [Invoice]
    nevertheless returns no diagnostic at all, whatever the framework's own
    diagnostics are, because it raises. [Note], which differs by declaring
    no [unique_together], gets its Critical. *)
Theorem check_loses_critical_of_Invoice :
  _get_tenant_field Invoice = None
  ∧ _run_check_tenant_field Invoice = Return [tenant_field_critical "Invoice"]
  ∧ (∀ super_check, check super_check Invoice =
       Raise (AttributeError "'NoneType' object has no attribute 'name'"))
  ∧ check [] Note = Return [tenant_field_critical "Note"].
Proof.
  split; [reflexivity|]. split; [reflexivity|].
  split; [|vm_compute; reflexivity].
  intros super_check. apply check_raises_without_tenant_field; [|done..].
  repeat constructor.
Qed.
End CheckFacts.

(** ** Storage *)

Section StorageFacts.
Context {Row : Type}.

Lemma foldr_max_ge (l : list Z) (k : Z) : k ∈ l -> k ≤ foldr Z.max 0 l.
Proof.
  induction l as [|x l IH]; simpl.
  - by intros ?%elem_of_nil.
  - intros [->|Hin]%elem_of_cons; [lia|]. specialize (IH Hin). lia.
Qed.

(** The key handed out next is not in use. *)
Lemma next_pk_fresh (rows : gmap Z Row) : rows !! Storage.next_pk rows = None.
Proof.
  destruct (rows !! Storage.next_pk rows) as [r|] eqn:Hl; [|done].
  apply elem_of_map_to_list in Hl.
  assert (Storage.next_pk rows ∈ (map_to_list rows).*1) as Hin.
  { apply list_elem_of_fmap. by exists (Storage.next_pk rows, r). }
  apply foldr_max_ge in Hin. unfold Storage.next_pk in Hin. lia.
Qed.

Lemma violates_false (conflict : Row -> Row -> bool) (pk : option Z) (r : Row)
    (rows : gmap Z Row) :
  Storage.violates conflict pk r rows = false ↔
  ∀ k r', rows !! k = Some r' -> Some k ≠ pk -> conflict r r' = false.
Proof.
  unfold Storage.violates. rewrite bool_decide_eq_false. split.
  - intros Hno k r' Hl Hk. destruct (conflict r r') eqn:Hc; [|done].
    exfalso. apply Hno. by exists k, r'.
  - intros Hall (k & r' & Hl & Hk & Hc). rewrite (Hall k r' Hl Hk) in Hc.
    discriminate.
Qed.
End StorageFacts.

(** ** Primary domains *)

Section DomainFacts.
Import DomainMixin.

(** What [update(is_primary=False)] does to each row: a row of the queryset
    is demoted, any other row is left alone. *)
Lemma lookup_update (self : Domain) (rows : gmap Z DomainRow) (j : Z) :
  update_is_primary_False self rows !! j =
  match rows !! j with
  | Some r =>
      Some (if decide (row_tenant r = tenant self ∧ row_is_primary r = true
                       ∧ Some j ≠ pk self)
            then demote r else r)
  | None => None
  end.
Proof.
  unfold update_is_primary_False, domain_list.
  rewrite lookup_union, lookup_fmap, map_lookup_filter.
  destruct (rows !! j) as [r|]; simpl; [|done].
  destruct (decide (row_tenant r = tenant self ∧ row_is_primary r = true
                    ∧ Some j ≠ pk self)) as [Hin|Hout].
  - by rewrite option_guard_True.
  - by rewrite option_guard_False.
Qed.

(** The rows the transaction holds before the final write are the stored
    rows with, at most, some primary flags cleared. *)
Lemma lookup_rows_before_write (self : Domain) (db : DB) (j : Z) (r' : DomainRow) :
  rows_before_write self db !! j = Some r' ->
  ∃ r, domains db !! j = Some r
       ∧ row_tenant r' = row_tenant r ∧ row_domain r' = row_domain r
       ∧ (row_is_primary r' = true -> r' = r).
Proof.
  unfold rows_before_write. destruct (primary_after self db).
  - rewrite lookup_update. destruct (domains db !! j) as [r|]; [|done].
    intros [= <-]. exists r. split; [done|].
    case_decide; simpl; [|done]. repeat split. discriminate.
  - intros ->. exists r'. done.
Qed.

Lemma lookup_rows_before_write_None (self : Domain) (db : DB) (j : Z) :
  rows_before_write self db !! j = None ↔ domains db !! j = None.
Proof.
  unfold rows_before_write. destruct (primary_after self db); [|done].
  rewrite lookup_update. destruct (domains db !! j); done.
Qed.

(** The queryset is non-empty exactly when another primary domain of the
    tenant is stored. *)
Lemma exists_domain_list (self : Domain) (db : DB) :
  exists_ (domain_list self (domains db)) = true ↔ other_primary_exists self db.
Proof.
  unfold exists_, domain_list, other_primary_exists.
  rewrite bool_decide_eq_true. split.
  - intros (k & r & Hl)%map_choose.
    apply map_lookup_filter_Some in Hl as [Hl (? & ? & ?)]. simpl in *.
    by exists k, r.
  - intros (k & r & Hl & Ht & Hp & Hk) Hempty.
    eapply (map_filter_empty_not_lookup _ _ k r); [exact Hempty| |exact Hl].
    done.
Qed.

Lemma primary_after_true (self : Domain) (db : DB) :
  primary_after self db = true ↔
  is_primary self = true ∨ ¬ other_primary_exists self db.
Proof.
  unfold primary_after. rewrite <- exists_domain_list.
  destruct (is_primary self), (exists_ _); simpl; split; auto.
  - intros [?|H]; [done|]. by exfalso.
Qed.

(** The body of [save] in terms of [primary_after] and
    [rows_before_write]. *)
Lemma save_unfold (self : Domain) (db : DB) :
  save self db =
  let self1 := set_is_primary (primary_after self db) self in
  let db1 := {| tenants := tenants db; domains := rows_before_write self db |} in
  let writes1 := if primary_after self db then [db1] else [] in
  match Model_save self1 db1 with
  | Return (self2, db2) =>
      {| self_after := self2; inside := removelast (writes1 ++ [db2]);
         committed := db2; outcome := Return tt |}
  | Raise e =>
      {| self_after := self1; inside := writes1; committed := db;
         outcome := Raise e |}
  end.
Proof.
  unfold save, atomic, save_body, rows_before_write, primary_after.
  destruct (is_primary self || negb _) eqn:Hp; simpl.
  - destruct (Model_save _ _) as [[self2 db2]|e]; reflexivity.
  - destruct db as [ts ds]; simpl.
    destruct (Model_save _ _) as [[self2 db2]|e]; reflexivity.
Qed.

(** A save that raises leaves the database as it was. *)
Lemma save_raise_rolls_back (self : Domain) (db : DB) (e : exn) :
  outcome (save self db) = Raise e -> committed (save self db) = db.
Proof.
  rewrite save_unfold. simpl.
  destruct (Model_save _ _) as [[self2 db2]|e']; simpl; [discriminate|done].
Qed.

(** A save that returns has written [self], with the computed flag, under
    its own key or under a key that was free, on top of the rows the
    transaction held. *)
Lemma save_return (self : Domain) (db : DB) :
  outcome (save self db) = Return tt ->
  ∃ k, self_after (save self db)
         = set_pk k (set_is_primary (primary_after self db) self)
       ∧ committed (save self db)
         = {| tenants := tenants db;
              domains := <[k := to_row (set_is_primary (primary_after self db) self)]>
                           (rows_before_write self db) |}
       ∧ (pk self = Some k ∨ (pk self = None ∧ domains db !! k = None)).
Proof.
  rewrite save_unfold. simpl. unfold Model_save, Storage.upsert. simpl.
  case_bool_decide; simpl; [|discriminate].
  destruct (Storage.violates _ _ _ _); simpl; [discriminate|].
  intros _. eexists. split; [reflexivity|]. split; [reflexivity|].
  destruct (pk self) as [k|] eqn:Hpk; simpl; [by left|].
  right. split; [done|].
  apply (lookup_rows_before_write_None self db). apply next_pk_fresh.
Qed.

(** The save returns when the tenant is stored and the domain is free. *)
Lemma save_succeeds (self : Domain) (db : DB) :
  tenant self ∈ tenants db ->
  domain_free self db ->
  outcome (save self db) = Return tt.
Proof.
  intros Ht Hfree. rewrite save_unfold. simpl.
  unfold Model_save, Storage.upsert. simpl.
  rewrite bool_decide_eq_true_2 by done.
  assert (Storage.violates conflict (pk self)
            (to_row (set_is_primary (primary_after self db) self))
            (rows_before_write self db) = false) as ->; [|done].
  apply violates_false. intros k r' Hl Hk.
  apply lookup_rows_before_write in Hl as (r & Hl & _ & Hd & _).
  unfold conflict. simpl. rewrite Hd. apply String.eqb_neq.
  intros Heq. by apply (Hfree k r Hl Hk).
Qed.
(** Rows of other tenants pass through the transaction untouched. *)
Lemma rows_before_write_other_tenant (self : Domain) (db : DB) (j : Z)
    (r : DomainRow) :
  domains db !! j = Some r ->
  row_tenant r ≠ tenant self ->
  rows_before_write self db !! j = Some r.
Proof.
  intros Hl Hne. unfold rows_before_write.
  destruct (primary_after self db); [|done].
  rewrite lookup_update, Hl. case_decide as Hd; [|done].
  by destruct Hd as [? _].
Qed.



End DomainFacts.

(** ** Primary domains, with the collaborators left open *)

Section DomainCallFacts.
Import DomainMixin.
Import DomainCall (Collaborators, fetch_tenant, super_save, commit_check,
                   Server, stored, pending, Execution, ex_self, ex_steps,
                   ex_db, ex_outcome, stores_row, plain, strands_tenant).

(** A call that returns got past [self.tenant], the base save and the
    commit; when the base save stores the row, the call has written [self],
    with the computed flag, under its own key or under a key that was free,
    on top of the rows the transaction held. *)
Lemma call_return (c : Collaborators) (self : Domain) (db : DB) :
  stores_row (super_save c) ->
  ex_outcome (DomainCall.save c self db) = Return tt ->
  ∃ k, ex_self (DomainCall.save c self db)
         = set_pk k (set_is_primary (primary_after self db) self)
       ∧ ex_db (DomainCall.save c self db)
         = {| tenants := tenants db;
              domains := <[k := to_row (set_is_primary (primary_after self db) self)]>
                           (rows_before_write self db) |}
       ∧ (pk self = Some k ∨ (pk self = None ∧ domains db !! k = None)).
Proof.
  intros Hbase. unfold DomainCall.save, DomainCall.atomic, DomainCall.save_body.
  destruct (fetch_tenant c self db) as [e|]; [discriminate|].
  fold (primary_after self db).
  destruct (super_save c _ _) as [[self2 db2]|e] eqn:Hs; [|discriminate].
  destruct (commit_check c db2) as [e|]; [discriminate|]. simpl. intros _.
  destruct (Hbase _ _ _ _ Hs) as (k & -> & -> & Hk). exists k.
  unfold rows_before_write.
  destruct (primary_after self db) eqn:Hp; simpl in *.
  - split; [done|]. split; [done|]. destruct Hk as [Hk|[Hk Hfree]]; [by left|].
    right. split; [done|].
    apply (lookup_rows_before_write_None self db k).
    unfold rows_before_write. by rewrite Hp.
  - done.
Qed.


(** What is stored during a call is the database before the call or the
    database after it. *)
Lemma call_steps_stored (c : Collaborators) (self : Domain) (db : DB) :
  Forall (fun s => stored s = db ∨ stored s = ex_db (DomainCall.save c self db))
    (ex_steps (DomainCall.save c self db)).
Proof.
  unfold DomainCall.save, DomainCall.atomic.
  destruct (DomainCall.save_body c self db) as [[self' writes] res].
  assert (∀ final : DB,
            Forall (fun s => stored s = db ∨ stored s = final)
              ({| stored := db; pending := Some db |}
                 :: map (fun w => {| stored := db; pending := Some w |}) writes)) as Hopen.
  { intros final. constructor; [by left|].
    apply Forall_forall. intros s Hin. apply list_elem_of_In in Hin.
    apply in_map_iff in Hin as (w & <- & _). by left. }
  destruct res as [db'|e]; [destruct (commit_check c db') as [e|]|];
    cbn [ex_steps ex_db];
    (apply Forall_app; split;
       [apply Hopen | constructor; [by right | constructor]]).
Qed.

(** The store of [DomainMixin.Model_save] stores the row. *)
Lemma Model_save_stores_row : stores_row Model_save.
Proof.
  intros self db self' db'. unfold Model_save, Storage.upsert.
  case_bool_decide; [|discriminate].
  destruct (Storage.violates _ _ _ _); simpl; [discriminate|].
  intros [= <- <-]. eexists. split; [reflexivity|]. split; [reflexivity|].
  destruct (pk self) as [k|]; simpl; [by left|].
  right. split; [done|]. apply next_pk_fresh.
Qed.

(** [DomainMixin.save] is the call with the plain collaborators. *)
Lemma save_is_plain_call (self : Domain) (db : DB) :
  self_after (save self db) = ex_self (DomainCall.save plain self db)
  ∧ committed (save self db) = ex_db (DomainCall.save plain self db)
  ∧ outcome (save self db) = ex_outcome (DomainCall.save plain self db).
Proof.
  unfold save, atomic, save_body, DomainCall.save, DomainCall.atomic,
    DomainCall.save_body. simpl.
  destruct (Model_save _ _) as [[self2 db2]|e]; done.
Qed.



Lemma moved_secondary_strands_nobody : ¬ strands_tenant moved_secondary sample_db.
Proof.
  intros (k & r & j & r' & Hpk & Hl & Hpr & _).
  injection Hpk as <-. vm_compute in Hl. injection Hl as <-. discriminate Hpr.
Qed.

Lemma moved_strands_tenant : strands_tenant moved sample_db.
Proof.
  exists 1, {| row_domain := "a.example.com"; row_tenant := 1;
               row_is_primary := true |},
         2, {| row_domain := "b.example.com"; row_tenant := 1;
               row_is_primary := false |}.
  repeat split; try discriminate; vm_compute; reflexivity.
Qed.


(** C6. Take a call of [save], with a base save that stores the whole row,
    that returns. The record is then stored, under the key the instance now
    has, with a primary flag that is set exactly when the caller asked for
    it or no other primary domain of the tenant was stored. For a tenant
    that owned no domain the stored flag is therefore set, also when the
    caller asked for a secondary domain. *)
Theorem save_stores_primary_flag (c : Collaborators) (self : Domain) (db : DB) :
  stores_row (super_save c) ->
  ex_outcome (DomainCall.save c self db) = Return tt ->
  ∃ k row,
    pk (ex_self (DomainCall.save c self db)) = Some k
    ∧ domains (ex_db (DomainCall.save c self db)) !! k = Some row
    ∧ row_domain row = domain self
    ∧ row_tenant row = tenant self
    ∧ is_primary (ex_self (DomainCall.save c self db)) = row_is_primary row
    ∧ (row_is_primary row = true ↔
         is_primary self = true ∨ ¬ other_primary_exists self db)
    ∧ (no_domain_of (tenant self) db -> row_is_primary row = true).
Proof.
  intros Hbase Hout.
  destruct (call_return c self db Hbase Hout) as (k & Hself & Hdb & Hk).
  exists k, (to_row (set_is_primary (primary_after self db) self)).
  rewrite Hself, Hdb. simpl.
  split; [done|]. split; [apply lookup_insert_eq|].
  split; [done|]. split; [done|]. split; [done|].
  split; [apply primary_after_true|].
  intros Hnone. apply primary_after_true. right.
  intros (k0 & r0 & Hl & Ht0 & _). by apply (Hnone k0 r0 Hl).
Qed.

Lemma save_stores_primary_flag_witness :
  stores_row (super_save plain)
  ∧ ex_outcome (DomainCall.save plain first_domain sample_db) = Return tt
  ∧ ∃ k row,
      pk (ex_self (DomainCall.save plain first_domain sample_db)) = Some k
      ∧ domains (ex_db (DomainCall.save plain first_domain sample_db)) !! k = Some row
      ∧ row_domain row = domain first_domain
      ∧ row_tenant row = tenant first_domain
      ∧ is_primary (ex_self (DomainCall.save plain first_domain sample_db))
        = row_is_primary row
      ∧ (row_is_primary row = true ↔
           is_primary first_domain = true
           ∨ ¬ other_primary_exists first_domain sample_db)
      ∧ (no_domain_of (tenant first_domain) sample_db -> row_is_primary row = true).
Proof.
  assert (ex_outcome (DomainCall.save plain first_domain sample_db) = Return tt)
    as Hout by (vm_compute; reflexivity).
  split; [exact Model_save_stores_row|]. split; [exact Hout|].
  exact (save_stores_primary_flag plain first_domain sample_db
           Model_save_stores_row Hout).
Defined.

(** C5. A tenant has a stored primary domain [d1]; a new record [d2] of the
    same tenant is saved with [is_primary] set, by a call, with a base save
    that stores the whole row, that returns. Afterwards [d1] is stored as
    secondary and [d2] as primary. In every state the server goes through
    during the call, what is stored, which is what other connections read,
    has exactly one of the two as primary; the state in which neither is
    primary does occur, but only as the working copy of the open
    transaction. *)
Theorem save_new_primary_replaces_old
    (c : Collaborators) (d2 : Domain) (db : DB) (k1 : Z) (d1 : DomainRow) :
  stores_row (super_save c) ->
  domains db !! k1 = Some d1 ->
  row_tenant d1 = tenant d2 ->
  row_is_primary d1 = true ->
  pk d2 = None ->
  is_primary d2 = true ->
  ex_outcome (DomainCall.save c d2 db) = Return tt ->
  ∃ k2,
    pk (ex_self (DomainCall.save c d2 db)) = Some k2
    ∧ k2 ≠ k1
    ∧ is_primary (ex_self (DomainCall.save c d2 db)) = true
    ∧ domains (ex_db (DomainCall.save c d2 db)) !! k1 = Some (demote d1)
    ∧ domains (ex_db (DomainCall.save c d2 db)) !! k2
      = Some (to_row (set_is_primary true d2))
    ∧ Forall (fun s => xorb (primary_in (stored s) k1) (primary_in (stored s) k2) = true)
        (ex_steps (DomainCall.save c d2 db))
    ∧ Exists (fun s => ∃ w, pending s = Some w
                            ∧ primary_in w k1 = false ∧ primary_in w k2 = false)
        (ex_steps (DomainCall.save c d2 db)).
Proof.
  intros Hbase Hl1 Ht1 Hp1 Hpk Hp2 Hout.
  destruct (call_return c d2 db Hbase Hout) as (k2 & Hself & Hdb & Hk).
  assert (primary_after d2 db = true) as Hpa
    by (apply primary_after_true; by left).
  assert (domains db !! k2 = None) as Hfresh
    by (destruct Hk as [Hk|[_ Hk]]; [congruence|done]).
  assert (k2 ≠ k1) as Hne by congruence.
  assert (domains (ex_db (DomainCall.save c d2 db)) !! k1 = Some (demote d1)) as Hc1.
  { rewrite Hdb. simpl. rewrite lookup_insert_ne by done.
    unfold rows_before_write. rewrite Hpa, lookup_update, Hl1.
    rewrite decide_True; [done|]. rewrite Hpk. done. }
  assert (domains (ex_db (DomainCall.save c d2 db)) !! k2
          = Some (to_row (set_is_primary true d2))) as Hc2.
  { rewrite Hdb. simpl. rewrite Hpa. apply lookup_insert_eq. }
  exists k2.
  split; [by rewrite Hself|]. split; [done|].
  split; [by rewrite Hself, Hpa|]. split; [done|]. split; [done|]. split.
  - eapply Forall_impl; [apply call_steps_stored|].
    intros s [-> | ->]; unfold primary_in.
    + by rewrite Hl1, Hfresh, Hp1.
    + by rewrite Hc1, Hc2.
  - revert Hout. unfold DomainCall.save, DomainCall.atomic, DomainCall.save_body.
    destruct (fetch_tenant c d2 db) as [e|]; [discriminate|].
    fold (primary_after d2 db). rewrite Hpa.
    destruct (super_save c _ _) as [[self2 db2]|e]; [|discriminate].
    destruct (commit_check c db2) as [e|]; [discriminate|]. intros _. simpl.
    apply Exists_cons_tl, Exists_cons_hd. eexists. split; [reflexivity|].
    unfold primary_in. simpl. rewrite !lookup_update, Hl1, Hfresh.
    rewrite decide_True; [done|]. by rewrite Hpk.
Qed.

Lemma save_new_primary_replaces_old_witness :
  stores_row (super_save plain)
  ∧ domains sample_db !! 1 =
      Some {| row_domain := "a.example.com"; row_tenant := 1; row_is_primary := true |}
  ∧ row_tenant {| row_domain := "a.example.com"; row_tenant := 1;
                  row_is_primary := true |} = tenant new_primary
  ∧ row_is_primary {| row_domain := "a.example.com"; row_tenant := 1;
                      row_is_primary := true |} = true
  ∧ pk new_primary = None
  ∧ is_primary new_primary = true
  ∧ ex_outcome (DomainCall.save plain new_primary sample_db) = Return tt
  ∧ ∃ k2,
      pk (ex_self (DomainCall.save plain new_primary sample_db)) = Some k2
      ∧ k2 ≠ 1
      ∧ is_primary (ex_self (DomainCall.save plain new_primary sample_db)) = true
      ∧ domains (ex_db (DomainCall.save plain new_primary sample_db)) !! 1 =
          Some (demote {| row_domain := "a.example.com"; row_tenant := 1;
                          row_is_primary := true |})
      ∧ domains (ex_db (DomainCall.save plain new_primary sample_db)) !! k2 =
          Some (to_row (set_is_primary true new_primary))
      ∧ Forall (fun s => xorb (primary_in (stored s) 1) (primary_in (stored s) k2) = true)
          (ex_steps (DomainCall.save plain new_primary sample_db))
      ∧ Exists (fun s => ∃ w, pending s = Some w
                              ∧ primary_in w 1 = false ∧ primary_in w k2 = false)
          (ex_steps (DomainCall.save plain new_primary sample_db)).
Proof.
  assert (domains sample_db !! 1 =
            Some {| row_domain := "a.example.com"; row_tenant := 1;
                    row_is_primary := true |}) as Hl
    by (vm_compute; reflexivity).
  assert (ex_outcome (DomainCall.save plain new_primary sample_db) = Return tt)
    as Hout by (vm_compute; reflexivity).
  split; [exact Model_save_stores_row|].
  split; [exact Hl|]. split; [reflexivity|]. split; [reflexivity|].
  split; [reflexivity|]. split; [reflexivity|]. split; [exact Hout|].
  exact (save_new_primary_replaces_old plain new_primary sample_db 1 _
           Model_save_stores_row Hl eq_refl eq_refl eq_refl eq_refl Hout).
Defined.
End DomainCallFacts.

(** * Further properties *)

(** ** Tenant-context resolution, continued *)

Section ResolverMore.
Import Resolver.

(** X24. Whatever object is bound, the resolved tenant has its [schema_name]. *)
Theorem get_tenant_keeps_schema_name
    (model : PyType) (connection : Connection) (t r : TenantObj) :
  tenant connection = Some t ->
  get_tenant model connection = Return r ->
  schema_name r = schema_name t.
Proof.
  intros Hb. unfold get_tenant. rewrite Hb.
  destruct (isinstance t model); intros [= <-]; reflexivity.
Qed.

Lemma get_tenant_keeps_schema_name_witness :
  tenant {| tenant := Some fake_tenant |} = Some fake_tenant
  ∧ get_tenant Client_type {| tenant := Some fake_tenant |}
      = Return (model_new Client_type "acme")
  ∧ schema_name (model_new Client_type "acme") = schema_name fake_tenant.
Proof.
  split; [reflexivity|]. split; [reflexivity|].
  apply (get_tenant_keeps_schema_name Client_type
           {| tenant := Some fake_tenant |} fake_tenant); reflexivity.
Defined.

(** X25. Resolution is stable: with the resolved tenant bound in place of the
    original object, [get_tenant] returns that same tenant. *)
Theorem get_tenant_stable
    (model : PyType) (connection : Connection) (r : TenantObj) :
  get_tenant model connection = Return r ->
  get_tenant model {| tenant := Some r |} = Return r.
Proof.
  unfold get_tenant. simpl.
  destruct (tenant connection) as [t|]; [|discriminate].
  destruct (isinstance t model) eqn:Hi; intros [= <-].
  - by rewrite Hi.
  - by rewrite isinstance_model_new.
Qed.

Lemma get_tenant_stable_witness :
  get_tenant Client_type {| tenant := Some fake_tenant |}
    = Return (model_new Client_type "acme")
  ∧ get_tenant Client_type {| tenant := Some (model_new Client_type "acme") |}
    = Return (model_new Client_type "acme").
Proof.
  split; [reflexivity|].
  apply (get_tenant_stable Client_type {| tenant := Some fake_tenant |}).
  reflexivity.
Defined.
End ResolverMore.

(** ** Model checks, continued *)

Section CheckMore.
Import checks MultitenantMixin Report.

Lemma get_tenant_field_first_aux (m : Model) :
  match _get_tenant_field m with
  | None => Forall (fun f => name f ≠ "tenant") (get_fields m)
  | Some f =>
      name f = "tenant"
      ∧ ∃ pre post, get_fields m = (pre ++ f :: post)%list
                    ∧ Forall (fun g => name g ≠ "tenant") pre
  end.
Proof.
  unfold _get_tenant_field.
  induction (get_fields m) as [|g fs IH]; simpl.
  - constructor.
  - rewrite filter_cons. destruct (decide (name g = "tenant")) as [Hg|Hg].
    + split; [done|]. exists [], fs. split; [done|constructor].
    + destruct (filter _ fs) as [|f fs'].
      * by constructor.
      * destruct IH as (Hn & pre & post & -> & Hpre).
        split; [done|]. exists (g :: pre), post. split; [done|].
        by constructor.
Qed.

(** X1. [_get_tenant_field] finds the first field called [tenant]: it answers
    [None] only when no field has that name, and otherwise the field it
    answers is a field of the model, is called [tenant], and no field before
    it is. *)
Theorem get_tenant_field_first (m : Model) :
  match _get_tenant_field m with
  | None => Forall (fun f => name f ≠ "tenant") (get_fields m)
  | Some f =>
      name f = "tenant"
      ∧ ∃ pre post, get_fields m = (pre ++ f :: post)%list
                    ∧ Forall (fun g => name g ≠ "tenant") pre
  end.
Proof. exact (get_tenant_field_first_aux m). Qed.

Lemma get_tenant_field_head (m : Model) :
  _get_tenant_field m = head (filter (fun f => name f = "tenant") (get_fields m)).
Proof. unfold _get_tenant_field. by destruct (filter _ _). Qed.

(** One round of the many-to-many loop appends the warning of the field,
    if it has one. *)
Lemma m2m_step_appends (m : Model) (f : Field) (through : Model)
    (warnings : list CheckMessage) :
  cls f = ManyToManyField through ->
  m2m_step m f through warnings =
  Return (warnings ++ option_list (m2m_warning m f))%list.
Proof.
  intros Hc. unfold m2m_step, m2m_warning.
  rewrite Hc, <- (get_tenant_field_head through).
  destruct (_get_tenant_field through) as [tf|]; simpl; [|done].
  destruct (isinstance_RLSForeignKey tf); simpl; [|done].
  by rewrite app_nil_r.
Qed.

(** The many-to-many loop appends to what it was given the warnings of the
    fields, in field order, unless a through model is unresolved. *)
Lemma m2m_loop_appends (m : Model) (all_fields : list Field)
    (warnings : list CheckMessage) :
  m2m_loop m all_fields warnings =
  if all_resolved all_fields
  then Return (warnings ++ omap (m2m_warning m) all_fields)%list
  else Raise unresolved_error.
Proof.
  revert warnings. induction all_fields as [|f rest IH]; intros warnings.
  - simpl. by rewrite app_nil_r.
  - change (all_resolved (f :: rest))
      with (through_resolved f && all_resolved rest).
    change (omap (m2m_warning m) (f :: rest))
      with (match m2m_warning m f with
            | Some w => w :: omap (m2m_warning m) rest
            | None => omap (m2m_warning m) rest
            end).
    cbn [m2m_loop].
    destruct (cls f) as [| | | |through| |through] eqn:Hc.
    5: { rewrite (m2m_step_appends m f through warnings Hc).
         assert (through_resolved f = true) as ->
           by (unfold through_resolved; by rewrite Hc).
         cbn [bind andb]. rewrite IH.
         destruct (all_resolved rest); [|done].
         destruct (m2m_warning m f) as [w|]; simpl.
         - by rewrite <- app_assoc.
         - by rewrite app_nil_r. }
    6: { assert (through_resolved f = false) as ->
           by (unfold through_resolved; by rewrite Hc).
         done. }
    all: assert (through_resolved f = true) as ->
           by (unfold through_resolved; by rewrite Hc);
         assert (m2m_warning m f = None) as ->
           by (unfold m2m_warning; by rewrite Hc);
         apply IH.
Qed.

Lemma m2m_check_report_aux (m : Model) :
  _run_check_m2m_fields m =
  if all_resolved (get_fields m)
  then Return (omap (m2m_warning m) (get_fields m))
  else Raise unresolved_error.
Proof. unfold _run_check_m2m_fields. by rewrite m2m_loop_appends. Qed.

(** X2. When every many-to-many field has a resolved through model, the
    many-to-many check returns, in field order, the warning of each field
    that has one: [W001], with a hint naming the model and the field, when
    the through model has no field called [tenant]; [W002] when its first
    such field is not an [RLSForeignKey]; nothing for any other field. When
    some through model is still a name, the check raises
    [AttributeError]. *)
Theorem m2m_check_report (m : Model) :
  _run_check_m2m_fields m =
  if all_resolved (get_fields m)
  then Return (omap (m2m_warning m) (get_fields m))
  else Raise unresolved_error.
Proof. exact (m2m_check_report_aux m). Qed.

Lemma unique_together_loop_appends (object_name : string) (f : Field)
    (uts : list (list string)) (warnings : list CheckMessage) :
  unique_together_loop object_name (Some f) uts warnings =
  Return (warnings ++ map (unique_together_warning object_name)
                          (filter (fun ut => name f ∉ ut) uts))%list.
Proof.
  revert warnings. induction uts as [|ut uts IH]; intros warnings; simpl.
  - by rewrite app_nil_r.
  - rewrite filter_cons. case_bool_decide as Hin; simpl;
      destruct (decide (name f ∉ ut)) as [Hd|Hd]; try done.
    rewrite IH. simpl. by rewrite <- app_assoc.
Qed.

Lemma unique_together_check_report_aux (m : Model) (f : Field) :
  _get_tenant_field m = Some f ->
  _run_check_unique_together m =
  Return (map (unique_together_warning (object_name m))
              (filter (fun ut => "tenant" ∉ ut) (unique_together m))).
Proof.
  intros Hf. unfold _run_check_unique_together. rewrite Hf.
  pose proof (get_tenant_field_first_aux m) as Hfirst. rewrite Hf in Hfirst.
  destruct Hfirst as [Hname _].
  destruct (unique_together m) as [|ut uts] eqn:Hu; [done|].
  rewrite unique_together_loop_appends, Hname. reflexivity.
Qed.

(** X3. On a model that has a tenant field, the composite-uniqueness check
    returns exactly one warning for each declared [unique_together] that
    does not list [tenant], in the order of declaration. *)
Theorem unique_together_check_report (m : Model) (f : Field) :
  _get_tenant_field m = Some f ->
  _run_check_unique_together m =
  Return (map (unique_together_warning (object_name m))
              (filter (fun ut => "tenant" ∉ ut) (unique_together m))).
Proof. exact (unique_together_check_report_aux m f). Qed.

Lemma unique_together_check_report_witness :
  _get_tenant_field Article
    = Some (mk_field "tenant" RLSForeignKey (Some false) (Some false))
  ∧ _run_check_unique_together Article =
    Return (map (unique_together_warning (object_name Article))
                (filter (fun ut => "tenant" ∉ ut) (unique_together Article))).
Proof.
  split; [reflexivity|].
  apply (unique_together_check_report Article
           (mk_field "tenant" RLSForeignKey (Some false) (Some false))).
  reflexivity.
Defined.

Lemma uniques_loop_appends (object_name : string) (all_fields : list Field)
    (warnings : list CheckMessage) :
  uniques_loop object_name all_fields warnings =
  Return (warnings ++ map (unique_warning object_name)
                          (filter (fun f => bare_unique f = true) all_fields))%list.
Proof.
  revert warnings. induction all_fields as [|f fs IH]; intros warnings; simpl.
  - by rewrite app_nil_r.
  - rewrite filter_cons.
    destruct (decide (bare_unique f = true)) as [Hd|Hd];
      unfold bare_unique in Hd.
    + rewrite Hd. simpl. rewrite IH. simpl. by rewrite <- app_assoc.
    + apply not_true_is_false in Hd. rewrite Hd. apply IH.
Qed.

Lemma uniques_check_report_aux (m : Model) :
  _run_check_uniques m =
  Return (map (unique_warning (object_name m))
              (filter (fun f => bare_unique f = true) (get_fields m))).
Proof. unfold _run_check_uniques. by rewrite uniques_loop_appends. Qed.

(** X4. The single-column check never raises. It returns exactly one warning
    for each field that is marked unique and is neither a relation nor the
    primary key, in field order; a field without a [unique] attribute counts
    as not unique. *)
Theorem uniques_check_report (m : Model) :
  _run_check_uniques m =
  Return (map (unique_warning (object_name m))
              (filter (fun f => bare_unique f = true) (get_fields m))).
Proof. exact (uniques_check_report_aux m). Qed.
End CheckMore.

Section CheckComposition.
Import checks MultitenantMixin Report.

Lemma criticals_of_warnings (ws : list CheckMessage) :
  Forall (fun w => level w = WARNING) ws -> criticals ws = [].
Proof.
  unfold criticals. induction 1 as [|w ws Hw _ IH]; [done|].
  rewrite filter_cons, decide_False; [done|]. rewrite Hw. discriminate.
Qed.

Lemma criticals_app (l1 l2 : list CheckMessage) :
  criticals (l1 ++ l2) = (criticals l1 ++ criticals l2)%list.
Proof. apply filter_app. Qed.

Lemma m2m_warnings_level (m : Model) (fs : list Field) :
  Forall (fun w => level w = WARNING) (omap (m2m_warning m) fs).
Proof.
  induction fs as [|f fs IH]; [constructor|].
  change (omap (m2m_warning m) (f :: fs))
    with (match m2m_warning m f with
          | Some w => w :: omap (m2m_warning m) fs
          | None => omap (m2m_warning m) fs
          end).
  destruct (m2m_warning m f) as [w|] eqn:Hw; [|done].
  constructor; [|done]. unfold m2m_warning in Hw.
  destruct (cls f) as [| | | |through| |through]; try discriminate.
  destruct (_get_tenant_field through) as [tf|].
  - destruct (isinstance_RLSForeignKey tf); [discriminate|].
    by injection Hw as <-.
  - by injection Hw as <-.
Qed.

Lemma check_report_in_order_aux
    (super_check : list CheckMessage) (m : Model) (f : Field) :
  _get_tenant_field m = Some f ->
  isinstance_RLSForeignKey f = true ->
  all_resolved (get_fields m) = true ->
  check super_check m =
    Return (super_check ++ omap (m2m_warning m) (get_fields m)
              ++ map (unique_together_warning (object_name m))
                     (filter (fun ut => "tenant" ∉ ut) (unique_together m))
              ++ map (unique_warning (object_name m))
                     (filter (fun f => bare_unique f = true) (get_fields m)))%list.
Proof.
  intros Hf Hrls Hres.
  unfold check, _run_check_tenant_field. rewrite Hf, Hrls. simpl.
  rewrite m2m_check_report_aux, Hres. simpl.
  rewrite (unique_together_check_report_aux m f Hf). simpl.
  rewrite uniques_check_report_aux. simpl.
  by rewrite app_nil_r, <- !app_assoc.
Qed.

(** X5. For a model whose tenant field is an [RLSForeignKey] and whose
    many-to-many fields all have a resolved through model, [check] returns:
    the framework's diagnostics first, then the many-to-many warnings, then
    one warning per [unique_together] without [tenant], then one per field
    that is unique on its own. *)
Theorem check_report_in_order
    (super_check : list CheckMessage) (m : Model) (f : Field) :
  _get_tenant_field m = Some f ->
  isinstance_RLSForeignKey f = true ->
  all_resolved (get_fields m) = true ->
  check super_check m =
    Return (super_check ++ omap (m2m_warning m) (get_fields m)
              ++ map (unique_together_warning (object_name m))
                     (filter (fun ut => "tenant" ∉ ut) (unique_together m))
              ++ map (unique_warning (object_name m))
                     (filter (fun f => bare_unique f = true) (get_fields m)))%list.
Proof. exact (check_report_in_order_aux super_check m f). Qed.

Lemma check_report_in_order_witness :
  _get_tenant_field Article
    = Some (mk_field "tenant" RLSForeignKey (Some false) (Some false))
  ∧ isinstance_RLSForeignKey
      (mk_field "tenant" RLSForeignKey (Some false) (Some false)) = true
  ∧ all_resolved (get_fields Article) = true
  ∧ check [] Article =
      Return ([] ++ omap (m2m_warning Article) (get_fields Article)
                ++ map (unique_together_warning (object_name Article))
                       (filter (fun ut => "tenant" ∉ ut) (unique_together Article))
                ++ map (unique_warning (object_name Article))
                       (filter (fun f => bare_unique f = true)
                               (get_fields Article)))%list.
Proof.
  split; [reflexivity|]. split; [reflexivity|]. split; [reflexivity|].
  apply (check_report_in_order [] Article
           (mk_field "tenant" RLSForeignKey (Some false) (Some false)));
    reflexivity.
Defined.

(** Without a tenant field and without [unique_together], on resolved
    through models, [check] returns the Critical, the many-to-many warnings
    and the single-column warnings, in that order, after the framework's
    diagnostics. *)
Lemma check_report_without_tenant_field
    (super_check : list CheckMessage) (m : Model) :
  _get_tenant_field m = None ->
  unique_together m = [] ->
  all_resolved (get_fields m) = true ->
  check super_check m =
    Return (super_check ++ tenant_field_critical (object_name m)
              :: omap (m2m_warning m) (get_fields m)
              ++ map (unique_warning (object_name m))
                     (filter (fun f => bare_unique f = true) (get_fields m)))%list.
Proof.
  intros Hnone Hut Hres.
  unfold check. rewrite (tenant_field_check_critical m Hnone). simpl.
  rewrite m2m_check_report_aux, Hres. simpl.
  unfold _run_check_unique_together. rewrite Hut. simpl.
  rewrite uniques_check_report_aux. simpl.
  by rewrite app_nil_r, <- !app_assoc.
Qed.

(** What [check] does in each case of the tenant field, the through models
    and [unique_together]. *)
Lemma check_cases (super_check : list CheckMessage) (m : Model) :
  match _get_tenant_field m with
  | Some f =>
      if isinstance_RLSForeignKey f then
        if all_resolved (get_fields m) then raises (check super_check m) = false
        else check super_check m = Raise unresolved_error
      else check super_check m = Raise (TypeError "'int' object is not callable")
  | None =>
      if all_resolved (get_fields m) then
        match unique_together m with
        | [] => raises (check super_check m) = false
        | _ =>
            check super_check m =
              Raise (AttributeError "'NoneType' object has no attribute 'name'")
        end
      else check super_check m = Raise unresolved_error
  end.
Proof.
  destruct (_get_tenant_field m) as [f|] eqn:Hf.
  - destruct (isinstance_RLSForeignKey f) eqn:Hrls.
    + destruct (all_resolved (get_fields m)) eqn:Hres.
      * by rewrite (check_report_in_order_aux super_check m f Hf Hrls Hres).
      * unfold check, _run_check_tenant_field. rewrite Hf, Hrls. simpl.
        by rewrite m2m_check_report_aux, Hres.
    + by apply (check_raises_on_wrong_type super_check m f).
  - destruct (all_resolved (get_fields m)) eqn:Hres.
    + destruct (unique_together m) as [|ut uts] eqn:Hut.
      * by rewrite (check_report_without_tenant_field super_check m Hf Hut Hres).
      * unfold check. rewrite (tenant_field_check_critical m Hf). simpl.
        rewrite m2m_check_report_aux, Hres. simpl.
        unfold _run_check_unique_together. by rewrite Hf, Hut.
    + unfold check. rewrite (tenant_field_check_critical m Hf). simpl.
      by rewrite m2m_check_report_aux, Hres.
Qed.

(** X6. [check] raises in exactly three situations: the model has a field
    called [tenant] that is not an [RLSForeignKey]; one of its many-to-many
    fields has an unresolved through model; or it has no field called
    [tenant] and declares some [unique_together]. In every other case it
    returns. *)
Theorem check_raises_iff (super_check : list CheckMessage) (m : Model) :
  raises (check super_check m) = true ↔
  (∃ f, _get_tenant_field m = Some f ∧ isinstance_RLSForeignKey f = false)
  ∨ all_resolved (get_fields m) = false
  ∨ (_get_tenant_field m = None ∧ unique_together m ≠ []).
Proof.
  pose proof (check_cases super_check m) as Hc.
  destruct (_get_tenant_field m) as [f|] eqn:Hf.
  - destruct (isinstance_RLSForeignKey f) eqn:Hrls.
    + destruct (all_resolved (get_fields m)) eqn:Hres.
      * rewrite Hc. split; [discriminate|].
        intros [(f' & [= <-] & Hno)|[[=]|[[=] _]]]. congruence.
      * rewrite Hc. simpl. split; [|done]. intros _. right. by left.
    + rewrite Hc. simpl. split; [|done]. intros _. left. by exists f.
  - destruct (all_resolved (get_fields m)) eqn:Hres.
    + destruct (unique_together m) as [|ut uts] eqn:Hut.
      * rewrite Hc. split; [discriminate|].
        intros [(f' & [=] & _)|[[=]|[_ Hne]]]. done.
      * rewrite Hc. simpl. split; [|done]. intros _. right. by right.
    + rewrite Hc. simpl. split; [|done]. intros _. right. by left.
Qed.

(** [Shelf] has a proper tenant field and a many-to-many field whose
    through model is still a name: [check] raises on it. *)
Lemma check_raises_on_unresolved_through :
  check [] Shelf = Raise unresolved_error.
Proof. vm_compute. reflexivity. Qed.

(** X7. The framework's own diagnostics are passed through untouched and come
    first; what [check] adds, and whether it raises, does not depend on
    them. *)
Theorem check_prepends_super (super_check : list CheckMessage) (m : Model) :
  check super_check m =
  (own <- check [] m ;; Return (super_check ++ own)%list).
Proof.
  unfold check.
  destruct (_run_check_tenant_field m) as [e1|]; simpl; [|done].
  destruct (_run_check_m2m_fields m) as [e2|]; simpl; [|done].
  destruct (_run_check_unique_together m) as [e3|]; simpl; [|done].
  destruct (_run_check_uniques m) as [e4|]; simpl; [|done].
  by rewrite <- !app_assoc.
Qed.

(** X8. When [check] returns, what it adds to the framework's diagnostics is
    the Critical that names the model, first, exactly when the model has no
    field called [tenant], followed by warnings only; so the Criticals it
    adds are that one or none. *)
Theorem check_critical_iff_no_tenant_field (m : Model) (errs : list CheckMessage) :
  check [] m = Return errs ->
  ∃ ws,
    errs = (match _get_tenant_field m with
            | None => [tenant_field_critical (object_name m)]
            | Some _ => []
            end ++ ws)%list
    ∧ Forall (fun w => level w = WARNING) ws
    ∧ criticals errs =
      match _get_tenant_field m with
      | None => [tenant_field_critical (object_name m)]
      | Some _ => []
      end.
Proof.
  intros Hret.
  assert (∀ l : list Field,
            Forall (fun w => level w = WARNING)
              (map (unique_warning (object_name m)) l)) as Hu.
  { intros l. by apply Forall_map, Forall_true. }
  assert (∀ l : list (list string),
            Forall (fun w => level w = WARNING)
              (map (unique_together_warning (object_name m)) l)) as Hut.
  { intros l. by apply Forall_map, Forall_true. }
  pose proof (check_cases [] m) as Hc. rewrite Hret in Hc.
  destruct (_get_tenant_field m) as [f|] eqn:Hf.
  - destruct (isinstance_RLSForeignKey f) eqn:Hrls; [|discriminate Hc].
    destruct (all_resolved (get_fields m)) eqn:Hres; [|discriminate Hc].
    rewrite (check_report_in_order_aux [] m f Hf Hrls Hres) in Hret.
    injection Hret as <-. eexists. split; [reflexivity|].
    assert (Forall (fun w => level w = WARNING)
              (omap (m2m_warning m) (get_fields m)
               ++ map (unique_together_warning (object_name m))
                    (filter (fun ut => "tenant" ∉ ut) (unique_together m))
               ++ map (unique_warning (object_name m))
                    (filter (fun f => bare_unique f = true) (get_fields m)))) as Hall.
    { apply Forall_app. split; [apply m2m_warnings_level|].
      apply Forall_app. split; [apply Hut|apply Hu]. }
    split; [exact Hall|]. by apply criticals_of_warnings.
  - destruct (all_resolved (get_fields m)) eqn:Hres; [|discriminate Hc].
    destruct (unique_together m) as [|ut uts] eqn:Hu0; [|discriminate Hc].
    rewrite (check_report_without_tenant_field [] m Hf Hu0 Hres) in Hret.
    injection Hret as <-. eexists. split; [reflexivity|].
    assert (Forall (fun w => level w = WARNING)
              (omap (m2m_warning m) (get_fields m)
               ++ map (unique_warning (object_name m))
                    (filter (fun f => bare_unique f = true) (get_fields m)))) as Hall.
    { apply Forall_app. split; [apply m2m_warnings_level|apply Hu]. }
    split; [exact Hall|].
    cbn [app]. unfold criticals. rewrite filter_cons, decide_True by done.
    f_equal. exact (criticals_of_warnings _ Hall).
Qed.

Lemma check_critical_iff_no_tenant_field_witness :
  check [] Note = Return [tenant_field_critical "Note"]
  ∧ ∃ ws,
      [tenant_field_critical "Note"] =
        (match _get_tenant_field Note with
         | None => [tenant_field_critical (object_name Note)]
         | Some _ => []
         end ++ ws)%list
      ∧ Forall (fun w => level w = WARNING) ws
      ∧ criticals [tenant_field_critical "Note"] =
        match _get_tenant_field Note with
        | None => [tenant_field_critical (object_name Note)]
        | Some _ => []
        end.
Proof.
  split; [vm_compute; reflexivity|].
  apply (check_critical_iff_no_tenant_field Note).
  vm_compute; reflexivity.
Defined.
End CheckComposition.

(** ** Bulk delete, continued *)

Section DeleteMore.
Import TenantQueryset Aggregate.

Lemma foldl_add_total (c : Z) (counts : list Z) :
  foldl Z.add c counts = c + total counts.
Proof.
  revert c. induction counts as [|x l IH]; intros c; simpl.
  - unfold total. simpl. lia.
  - rewrite IH. unfold total. simpl. lia.
Qed.

Lemma delete_sums_and_calls_each_aux (objs : list Scripted) (log : list string) :
  Forall (fun o => raises (answer o) = false) objs ->
  delete scripted_delete objs log =
    ((log ++ map label objs)%list,
     Return (if (total (reported objs).*1 =? 0)%Z then None
             else Some (total (reported objs).*1,
                        foldl dict_update ∅ (reported objs).*2))).
Proof.
  intros Hall. unfold delete.
  rewrite (delete_loop_scripted objs 0 ∅ log Hall), foldl_add_total.
  by rewrite Z.add_0_l.
Qed.

(** X9. On a batch in which no delete raises, every entity's [delete] is
    called once, in queryset order; the count returned is the sum of the
    counts reported, and the result is [None] exactly when that sum is
    zero. *)
Theorem delete_sums_and_calls_each (objs : list Scripted) (log : list string) :
  Forall (fun o => raises (answer o) = false) objs ->
  delete scripted_delete objs log =
    ((log ++ map label objs)%list,
     Return (if (total (reported objs).*1 =? 0)%Z then None
             else Some (total (reported objs).*1,
                        foldl dict_update ∅ (reported objs).*2))).
Proof. exact (delete_sums_and_calls_each_aux objs log). Qed.

Lemma delete_sums_and_calls_each_witness :
  Forall (fun o => raises (answer o) = false) [client_a; client_silent; client_c]
  ∧ delete scripted_delete [client_a; client_silent; client_c] [] =
    (([] ++ map label [client_a; client_silent; client_c])%list,
     Return (if (total (reported [client_a; client_silent; client_c]).*1 =? 0)%Z
             then None
             else Some (total (reported [client_a; client_silent; client_c]).*1,
                        foldl dict_update ∅
                          (reported [client_a; client_silent; client_c]).*2))).
Proof.
  assert (Forall (fun o => raises (answer o) = false)
            [client_a; client_silent; client_c]) as Hall
    by (repeat constructor).
  split; [exact Hall|].
  exact (delete_sums_and_calls_each [client_a; client_silent; client_c] [] Hall).
Defined.

(** On maps without a common key, overwriting and adding are the same
    merge. *)
Lemma merge_add_disjoint (d other : gmap string Z) :
  d ##ₘ other -> merge_add d other = dict_update d other.
Proof.
  intros Hdisj. apply map_eq. intros k. unfold merge_add, dict_update.
  rewrite lookup_union_with, lookup_union.
  destruct (d !! k) as [x|] eqn:Hd, (other !! k) as [y|] eqn:Ho; simpl; try done.
  exfalso. by apply (proj1 (map_disjoint_spec d other) Hdisj k x y).
Qed.

Lemma foldl_merge_disjoint (d : gmap string Z) (ds : list (gmap string Z)) :
  Forall (fun d' => d ##ₘ d') ds ->
  tables_disjoint ds ->
  foldl dict_update d ds = foldl merge_add d ds.
Proof.
  revert d. induction ds as [|m ds IH]; intros d Hd Hds; simpl; [done|].
  apply Forall_cons in Hd as [Hdm Hd]. destruct Hds as [Hm Hds].
  rewrite (merge_add_disjoint d m Hdm). apply IH; [|done].
  unfold dict_update. apply Forall_forall. intros m' Hin.
  apply map_disjoint_union_l. split.
  - by apply (proj1 (Forall_forall _ _) Hm).
  - by apply (proj1 (Forall_forall _ _) Hd).
Qed.

(** X10. When no table name is reported by two entities of the batch, the detail
    map of the result does add up the counts per table. *)
Theorem delete_detail_adds_when_disjoint (objs : list Scripted) (log : list string) :
  Forall (fun o => raises (answer o) = false) objs ->
  tables_disjoint (reported objs).*2 ->
  (delete scripted_delete objs log).2 =
    Return (if (total (reported objs).*1 =? 0)%Z then None
            else Some (total (reported objs).*1,
                       foldl merge_add ∅ (reported objs).*2)).
Proof.
  intros Hall Hdisj. rewrite (delete_sums_and_calls_each_aux objs log Hall). simpl.
  rewrite foldl_merge_disjoint; [done| |done].
  apply Forall_forall. intros m _. apply map_disjoint_empty_l.
Qed.

Lemma delete_detail_adds_when_disjoint_witness :
  Forall (fun o => raises (answer o) = false) [client_c; invoice_d]
  ∧ tables_disjoint (reported [client_c; invoice_d]).*2
  ∧ (delete scripted_delete [client_c; invoice_d] []).2 =
      Return (if (total (reported [client_c; invoice_d]).*1 =? 0)%Z then None
              else Some (total (reported [client_c; invoice_d]).*1,
                         foldl merge_add ∅ (reported [client_c; invoice_d]).*2)).
Proof.
  assert (Forall (fun o => raises (answer o) = false) [client_c; invoice_d])
    as Hall by (repeat constructor).
  assert (tables_disjoint (reported [client_c; invoice_d]).*2) as Hdisj.
  { simpl. split; [|split; [constructor|exact I]].
    constructor; [|constructor].
    apply map_disjoint_spec. intros k x y Hx Hy.
    apply lookup_singleton_Some in Hy as [<- _].
    vm_compute in Hx. discriminate Hx. }
  split; [exact Hall|]. split; [exact Hdisj|].
  exact (delete_detail_adds_when_disjoint [client_c; invoice_d] [] Hall Hdisj).
Defined.

Lemma foldl_dict_update_absent (k : string) (acc : gmap string Z)
    (ds : list (gmap string Z)) :
  Forall (fun d => d !! k = None) ds ->
  foldl dict_update acc ds !! k = acc !! k.
Proof.
  revert acc. induction ds as [|d ds IH]; intros acc Hall; simpl; [done|].
  apply Forall_cons in Hall as [Hd Hall]. rewrite IH by done.
  unfold dict_update. by rewrite lookup_union_r.
Qed.

Lemma reported_app (l1 l2 : list Scripted) :
  reported (l1 ++ l2) = (reported l1 ++ reported l2)%list.
Proof. unfold reported. apply omap_app. Qed.

(** X11. For a table that several entities report, the detail map keeps the
    count of the last entity that reported it. *)
Theorem delete_detail_last_wins
    (pre post : list Scripted) (o : Scripted) (c : Z) (d : gmap string Z)
    (k : string) (v : Z) (log : list string) :
  Forall (fun o' => raises (answer o') = false) (pre ++ o :: post) ->
  answer o = Return (Some (c, d)) ->
  d !! k = Some v ->
  Forall (fun o' => ∀ c' d', answer o' = Return (Some (c', d')) -> d' !! k = None)
    post ->
  ∃ n detail,
    (delete_loop scripted_delete (pre ++ o :: post) 0 ∅ log).2 = Return (n, detail)
    ∧ detail !! k = Some v
    ∧ (n ≠ 0 ->
       (delete scripted_delete (pre ++ o :: post) log).2 = Return (Some (n, detail))).
Proof.
  intros Hall Ho Hk Hpost.
  pose proof (delete_loop_scripted (pre ++ o :: post) 0 ∅ log Hall) as Hloop.
  eexists _, _. split; [by rewrite Hloop|]. split.
  - rewrite reported_app, fmap_app, foldl_app.
    assert (reported (o :: post) = (c, d) :: reported post) as ->.
    { unfold reported. simpl. by rewrite Ho. }
    simpl. rewrite foldl_dict_update_absent.
    + unfold dict_update. rewrite lookup_union_l'; [done|by eexists].
    + clear -Hpost. induction Hpost as [|o' post Ho' _ IH]; [constructor|].
      unfold reported in *. simpl.
      destruct (answer o') as [[[c' d']|]|e] eqn:Ha; simpl; try done.
      constructor; [|done]. simpl. by apply (Ho' c' d').
  - intros Hn. unfold delete. rewrite Hloop.
    apply Z.eqb_neq in Hn. simpl. by rewrite Hn.
Qed.

Lemma delete_detail_last_wins_witness :
  Forall (fun o' => raises (answer o') = false) ([client_c] ++ client_a :: [invoice_d])
  ∧ answer client_a = Return (Some (1, {[ "customers.Client" := 1 ]}))
  ∧ ({[ "customers.Client" := 1 ]} : gmap string Z) !! "customers.Client" = Some 1
  ∧ Forall (fun o' => ∀ c' d', answer o' = Return (Some (c', d')) ->
                               d' !! "customers.Client" = None) [invoice_d]
  ∧ ∃ n detail,
      (delete_loop scripted_delete ([client_c] ++ client_a :: [invoice_d]) 0 ∅ []).2
        = Return (n, detail)
      ∧ detail !! "customers.Client" = Some 1
      ∧ (n ≠ 0 ->
         (delete scripted_delete ([client_c] ++ client_a :: [invoice_d]) []).2
           = Return (Some (n, detail))).
Proof.
  assert (Forall (fun o' => ∀ c' d', answer o' = Return (Some (c', d')) ->
                               d' !! "customers.Client" = None) [invoice_d]) as Hpost.
  { constructor; [|constructor]. intros c' d' [= <- <-]. vm_compute. reflexivity. }
  split; [repeat constructor|]. split; [reflexivity|].
  split; [vm_compute; reflexivity|]. split; [exact Hpost|].
  apply (delete_detail_last_wins [client_c] [invoice_d] client_a 1
           {[ "customers.Client" := 1 ]} "customers.Client" 1 []).
  - repeat constructor.
  - reflexivity.
  - vm_compute; reflexivity.
  - exact Hpost.
Defined.

Lemma delete_loop_skips_silent (objs : list Scripted) counter counter_dict
    (log log' : list string) :
  (delete_loop scripted_delete objs counter counter_dict log).2 =
  (delete_loop scripted_delete (filter (fun o => ¬ silent o) objs)
     counter counter_dict log').2.
Proof.
  revert counter counter_dict log log'.
  induction objs as [|o objs IH]; intros counter counter_dict log log'; [done|].
  rewrite filter_cons. destruct (decide (¬ silent o)) as [Hs|Hs]; simpl.
  - unfold silent in Hs.
    destruct (answer o) as [[[c d]|]|e]; first [done | apply IH].
  - apply dec_stable in Hs. unfold silent in Hs. rewrite Hs. apply IH.
Qed.

(** X12. Entities whose [delete] returns [None] do not change the result: the
    batch gives what it gives with those entities left out, be it a count,
    [None] or an exception. *)
Theorem delete_skips_silent (objs : list Scripted) (log : list string) :
  (delete scripted_delete objs log).2 =
  (delete scripted_delete (filter (fun o => ¬ silent o) objs) log).2.
Proof.
  unfold delete.
  pose proof (delete_loop_skips_silent objs 0 ∅ log log) as H.
  destruct (delete_loop scripted_delete objs 0 ∅ log) as [st [[c d]|e]];
    destruct (delete_loop scripted_delete _ 0 ∅ log) as [st' [[c' d']|e']];
    simpl in *; simplify_eq; done.
Qed.
End DeleteMore.

(** ** Tenant lifecycle, continued *)

Section LifecycleMore.
Import TenantMixin Uniqueness.

Lemma tenant_save_effect_aux (self : Tenant) (w : World) :
  match save self w with
  | (w', self', Return _) =>
      ∃ k, self' = {| pk := Some k; domain_url := domain_url self;
                      schema_name := schema_name self |}
           ∧ tenants w' = <[k := to_row self]> (tenants w)
           ∧ sent w' = sent w
           ∧ (pk self = Some k ∨ (pk self = None ∧ tenants w !! k = None))
           ∧ ∀ j r, tenants w !! j = Some r -> Some j ≠ pk self ->
                    row_schema_name r ≠ schema_name self
                    ∧ row_domain_url r ≠ domain_url self
  | (w', self', Raise _) => w' = w ∧ self' = self
  end.
Proof.
  unfold save, Model_save, Storage.upsert.
  destruct (Storage.violates conflict (pk self) (to_row self) (tenants w)) eqn:Hv;
    simpl; [done|].
  eexists. split; [reflexivity|]. split; [reflexivity|]. split; [reflexivity|].
  split.
  - destruct (pk self) as [k|]; simpl; [by left|].
    right. split; [done|]. apply next_pk_fresh.
  - intros j r Hl Hj.
    pose proof (proj1 (violates_false _ _ _ _) Hv j r Hl Hj) as Hc.
    unfold conflict in Hc. apply orb_false_iff in Hc as [Hd Hs].
    apply String.eqb_neq in Hd, Hs. simpl in *. split; congruence.
Qed.

(** [TenantMixin.save] is the call whose base save is
    [TenantMixin.Model_save]. *)
Lemma tenant_save_is_plain_call (self : Tenant) (w : World) :
  save self w = TenantCall.save Model_save self w.
Proof. reflexivity. Qed.

Lemma Model_save_sets_key : TenantCall.sets_key Model_save.
Proof.
  intros self rows self' rows' Hs.
  destruct (Model_save_sets_pk _ _ _ _ Hs) as (k & Hk & _). congruence.
Qed.

(** X13. With a base save that never returns leaving the instance without a
    key, as every save that stores the row does, [save] sends no signal,
    however often it is called on the instance. *)
Theorem tenant_save_keyed_never_sends
    (base : Tenant -> gmap Z TenantRow -> result (Tenant * gmap Z TenantRow))
    (n : nat) (self : Tenant) (w : World) :
  TenantCall.sets_key base ->
  sent (TenantCall.save_times base n self w).1 = sent w.
Proof.
  intros Hkey. revert self w. induction n as [|n IH]; intros self w; [done|].
  cbn [TenantCall.save_times]. unfold TenantCall.save.
  destruct (base self (tenants w)) as [[self' rows']|e] eqn:Hs.
  - pose proof (Hkey _ _ _ _ Hs) as Hpk.
    destruct (pk self') as [k|]; [|done]. by rewrite IH.
  - by rewrite IH.
Qed.

Lemma tenant_save_keyed_never_sends_witness :
  TenantCall.sets_key Model_save
  ∧ sent (TenantCall.save_times Model_save 3 acme empty_world).1 = sent empty_world.
Proof.
  split; [exact Model_save_sets_key|].
  exact (tenant_save_keyed_never_sends Model_save 3 acme empty_world
           Model_save_sets_key).
Defined.

(** X14. With a base save that returns without saving, as [Model.save] does
    when called with an empty [update_fields], every call of [save] on an
    instance that has no key sends the signal again, with the instance as
    payload: [n] calls send it [n] times, and neither the table nor the
    instance changes. *)
Theorem tenant_save_skipped_sends_each_time (n : nat) (self : Tenant) (w : World) :
  pk self = None ->
  TenantCall.save_times TenantCall.skip_save n self w =
    ({| tenants := tenants w;
        sent := sent w ++ replicate n {| sender := "TenantMixin"; payload := self |} |},
     self).
Proof.
  intros Hpk. revert w. induction n as [|n IH]; intros w.
  - simpl. rewrite app_nil_r. by destruct w.
  - cbn [TenantCall.save_times]. unfold TenantCall.save, TenantCall.skip_save.
    rewrite Hpk. rewrite IH. unfold post_schema_sync_send. simpl.
    by rewrite <- app_assoc.
Qed.

Lemma tenant_save_skipped_sends_each_time_witness :
  pk acme = None
  ∧ TenantCall.save_times TenantCall.skip_save 2 acme empty_world =
      ({| tenants := tenants empty_world;
          sent := sent empty_world
                    ++ replicate 2 {| sender := "TenantMixin"; payload := acme |} |},
       acme).
Proof.
  split; [reflexivity|].
  exact (tenant_save_skipped_sends_each_time 2 acme empty_world eq_refl).
Defined.

(** X15. The tenant table never comes to hold two rows with the same
    [schema_name] or the same [domain_url]. *)
Theorem tenant_save_keeps_unique (self : Tenant) (w : World) :
  tenants_unique (tenants w) ->
  tenants_unique (tenants (save self w).1.1).
Proof.
  intros Hu. pose proof (tenant_save_effect_aux self w) as He.
  destruct (save self w) as [[w' self'] [[]|e]]; simpl in *.
  - destruct He as (k & _ & -> & _ & Hk & Hfree).
    assert (∀ j r, j ≠ k -> tenants w !! j = Some r ->
              row_schema_name r ≠ schema_name self
              ∧ row_domain_url r ≠ domain_url self) as Hother.
    { intros j r Hj Hl. apply (Hfree j r Hl).
      destruct Hk as [->|[-> _]]; congruence. }
    intros k1 k2 r1 r2 H1 H2 Hne.
    apply lookup_insert_Some in H1 as [[<- <-]|[Hn1 H1]];
      apply lookup_insert_Some in H2 as [[<- <-]|[Hn2 H2]]; simpl.
    + done.
    + destruct (Hother k2 r2 (not_eq_sym Hn2) H2). split; congruence.
    + destruct (Hother k1 r1 (not_eq_sym Hn1) H1). split; congruence.
    + by apply (Hu k1 k2).
  - by destruct He as [-> _].
Qed.

Lemma tenant_save_keeps_unique_witness :
  tenants_unique (tenants acme_world)
  ∧ tenants_unique (tenants (save globex acme_world).1.1).
Proof.
  assert (tenants_unique (tenants acme_world)) as Hu.
  { intros k1 k2 r1 r2 H1 H2 Hne. simpl in H1, H2.
    apply lookup_singleton_Some in H1 as [<- _].
    apply lookup_singleton_Some in H2 as [<- _]. done. }
  split; [exact Hu|].
  exact (tenant_save_keeps_unique globex acme_world Hu).
Defined.
End LifecycleMore.

(** ** Primary domains, continued *)

Section DomainMore.
Import DomainMixin Uniqueness.

Lemma rows_before_write_keeps_domain (self : Domain) (db : DB) (j : Z)
    (r : DomainRow) :
  domains db !! j = Some r ->
  ∃ r', rows_before_write self db !! j = Some r'
        ∧ row_domain r' = row_domain r ∧ row_tenant r' = row_tenant r.
Proof.
  intros Hl.
  destruct (rows_before_write self db !! j) as [r'|] eqn:Hr.
  - apply lookup_rows_before_write in Hr as (r0 & Hl0 & Ht & Hd & _).
    exists r'. split; [done|]. split; congruence.
  - apply lookup_rows_before_write_None in Hr. congruence.
Qed.

Lemma domain_save_returns_iff_aux (self : Domain) (db : DB) :
  outcome (save self db) = Return tt ↔
  tenant self ∈ tenants db ∧ domain_free self db.
Proof.
  split; [|by intros [? ?]; apply save_succeeds].
  rewrite save_unfold. simpl. unfold Model_save, Storage.upsert. simpl.
  case_bool_decide as Ht; simpl; [|discriminate].
  destruct (Storage.violates _ _ _ _) eqn:Hv; simpl; [discriminate|].
  intros _. split; [done|].
  intros j r Hl Hj Hd.
  destruct (rows_before_write_keeps_domain self db j r Hl) as (r' & Hl' & Hd' & _).
  pose proof (proj1 (violates_false _ _ _ _) Hv j r' Hl' Hj) as Hc.
  unfold conflict in Hc. simpl in Hc. apply String.eqb_neq in Hc. congruence.
Qed.



(** X18. A save without arguments touches only the tenant of the record
    and the row of the record: every row of another tenant, other than the
    row stored under the key of the saved record, is stored afterwards as it
    was before, whether the save returns or raises. *)
Theorem domain_save_other_tenants_untouched
    (self : Domain) (db : DB) (j : Z) (r : DomainRow) :
  domains db !! j = Some r ->
  row_tenant r ≠ tenant self ->
  Some j ≠ pk self ->
  domains (committed (save self db)) !! j = Some r.
Proof.
  intros Hl Ht Hj.
  destruct (outcome (save self db)) as [[]|e] eqn:Hout;
    [|by rewrite (save_raise_rolls_back _ _ _ Hout)].
  destruct (save_return self db Hout) as (k & _ & -> & Hk). simpl.
  assert (k ≠ j) by (destruct Hk as [Hk|[_ Hk]]; congruence).
  rewrite lookup_insert_ne by done.
  by apply rows_before_write_other_tenant.
Qed.

Lemma domain_save_other_tenants_untouched_witness :
  domains sample_db !! 3 =
    Some {| row_domain := "c.example.com"; row_tenant := 2; row_is_primary := true |}
  ∧ row_tenant {| row_domain := "c.example.com"; row_tenant := 2;
                  row_is_primary := true |} ≠ tenant new_primary
  ∧ Some 3 ≠ pk new_primary
  ∧ domains (committed (save new_primary sample_db)) !! 3 =
      Some {| row_domain := "c.example.com"; row_tenant := 2; row_is_primary := true |}.
Proof.
  assert (domains sample_db !! 3 =
            Some {| row_domain := "c.example.com"; row_tenant := 2;
                    row_is_primary := true |}) as Hl by (vm_compute; reflexivity).
  split; [exact Hl|]. split; [discriminate|]. split; [discriminate|].
  apply (domain_save_other_tenants_untouched new_primary sample_db 3 _ Hl);
    discriminate.
Defined.

Lemma domain_save_sole_primary_aux (self : Domain) (db : DB) (j : Z) (r : DomainRow) :
  outcome (save self db) = Return tt ->
  is_primary (self_after (save self db)) = true ->
  domains (committed (save self db)) !! j = Some r ->
  row_tenant r = tenant self ->
  row_is_primary r = true ->
  pk (self_after (save self db)) = Some j.
Proof.
  intros Hout.
  destruct (save_return self db Hout) as (k & -> & -> & Hk). simpl.
  intros Hp Hl Ht Hpr. f_equal.
  apply lookup_insert_Some in Hl as [[<- _]|[Hne Hl]]; [done|].
  exfalso. unfold rows_before_write in Hl. rewrite Hp, lookup_update in Hl.
  destruct (domains db !! j) as [r0|] eqn:Hl0; [|done].
  injection Hl as <-. case_decide as Hd; [done|].
  apply Hd. repeat split; [done..|].
  destruct Hk as [->|[-> _]]; congruence.
Qed.

(** X19. When a record is stored as primary it is the only primary domain of its
    tenant afterwards, however many primary domains the tenant had
    before. *)
Theorem domain_save_sole_primary (self : Domain) (db : DB) (j : Z) (r : DomainRow) :
  outcome (save self db) = Return tt ->
  is_primary (self_after (save self db)) = true ->
  domains (committed (save self db)) !! j = Some r ->
  row_tenant r = tenant self ->
  row_is_primary r = true ->
  pk (self_after (save self db)) = Some j.
Proof. exact (domain_save_sole_primary_aux self db j r). Qed.

Lemma domain_save_sole_primary_witness :
  outcome (save promoted sample_db) = Return tt
  ∧ is_primary (self_after (save promoted sample_db)) = true
  ∧ domains (committed (save promoted sample_db)) !! 2 =
      Some {| row_domain := "b.example.com"; row_tenant := 1; row_is_primary := true |}
  ∧ row_tenant {| row_domain := "b.example.com"; row_tenant := 1;
                  row_is_primary := true |} = tenant promoted
  ∧ row_is_primary {| row_domain := "b.example.com"; row_tenant := 1;
                      row_is_primary := true |} = true
  ∧ pk (self_after (save promoted sample_db)) = Some 2.
Proof.
  assert (outcome (save promoted sample_db) = Return tt) as Hout
    by (vm_compute; reflexivity).
  assert (is_primary (self_after (save promoted sample_db)) = true) as Hp
    by (vm_compute; reflexivity).
  assert (domains (committed (save promoted sample_db)) !! 2 =
            Some {| row_domain := "b.example.com"; row_tenant := 1;
                    row_is_primary := true |}) as Hl
    by (vm_compute; reflexivity).
  split; [exact Hout|]. split; [exact Hp|]. split; [exact Hl|].
  split; [reflexivity|]. split; [reflexivity|].
  exact (domain_save_sole_primary promoted sample_db 2 _ Hout Hp Hl eq_refl eq_refl).
Defined.

Lemma dom_rows_before_write (self : Domain) (db : DB) :
  dom (rows_before_write self db) = dom (domains db).
Proof.
  apply set_eq. intros j. rewrite !elem_of_dom, <- !not_eq_None_Some.
  by rewrite lookup_rows_before_write_None.
Qed.

(** X20. A save never removes a row: afterwards the table has the keys it had,
    and the key of the saved record. *)
Theorem domain_save_keys (self : Domain) (db : DB) :
  outcome (save self db) = Return tt ->
  ∃ k, pk (self_after (save self db)) = Some k
       ∧ dom (domains (committed (save self db))) = {[ k ]} ∪ dom (domains db)
       ∧ (pk self = None -> k ∉ dom (domains db)).
Proof.
  intros Hout. destruct (save_return self db Hout) as (k & -> & -> & Hk).
  exists k. simpl. split; [done|]. split.
  - by rewrite dom_insert_L, dom_rows_before_write.
  - intros Hnone. destruct Hk as [Hk|[_ Hk]]; [congruence|].
    by apply not_elem_of_dom.
Qed.

Lemma domain_save_keys_witness :
  outcome (save new_primary sample_db) = Return tt
  ∧ ∃ k, pk (self_after (save new_primary sample_db)) = Some k
         ∧ dom (domains (committed (save new_primary sample_db)))
           = {[ k ]} ∪ dom (domains sample_db)
         ∧ (pk new_primary = None -> k ∉ dom (domains sample_db)).
Proof.
  assert (outcome (save new_primary sample_db) = Return tt) as Hout
    by (vm_compute; reflexivity).
  split; [exact Hout|].
  exact (domain_save_keys new_primary sample_db Hout).
Defined.

(** X21. Saving a record that does not ask to be primary, for a tenant that has
    another primary domain, demotes nothing: the table afterwards is the
    table before with the record written as it was given. *)
Theorem domain_save_secondary_demotes_nothing (self : Domain) (db : DB) :
  is_primary self = false ->
  other_primary_exists self db ->
  outcome (save self db) = Return tt ->
  ∃ k, pk (self_after (save self db)) = Some k
       ∧ is_primary (self_after (save self db)) = false
       ∧ domains (committed (save self db)) = <[k := to_row self]> (domains db).
Proof.
  intros Hp Hother Hout.
  destruct (save_return self db Hout) as (k & -> & -> & _).
  assert (primary_after self db = false) as Hpa.
  { apply not_true_is_false. intros [H|H]%primary_after_true; congruence. }
  exists k. simpl. unfold rows_before_write. rewrite Hpa.
  split; [done|]. split; [done|].
  f_equal. unfold to_row. simpl. by rewrite Hp.
Qed.

Lemma domain_save_secondary_demotes_nothing_witness :
  is_primary new_secondary = false
  ∧ other_primary_exists new_secondary sample_db
  ∧ outcome (save new_secondary sample_db) = Return tt
  ∧ ∃ k, pk (self_after (save new_secondary sample_db)) = Some k
         ∧ is_primary (self_after (save new_secondary sample_db)) = false
         ∧ domains (committed (save new_secondary sample_db))
           = <[k := to_row new_secondary]> (domains sample_db).
Proof.
  assert (other_primary_exists new_secondary sample_db) as Hother.
  { exists 1, {| row_domain := "a.example.com"; row_tenant := 1;
                 row_is_primary := true |}.
    split; [vm_compute; reflexivity|]. repeat split. discriminate. }
  assert (outcome (save new_secondary sample_db) = Return tt) as Hout
    by (vm_compute; reflexivity).
  split; [reflexivity|]. split; [exact Hother|]. split; [exact Hout|].
  exact (domain_save_secondary_demotes_nothing new_secondary sample_db
           eq_refl Hother Hout).
Defined.
End DomainMore.

Section DomainRepeat.
Import DomainMixin Uniqueness.

(** X22. The domain table never comes to hold two rows with the same
    [domain]. *)
Theorem domain_save_keeps_unique (self : Domain) (db : DB) :
  domains_unique (domains db) ->
  domains_unique (domains (committed (save self db))).
Proof.
  intros Hu.
  destruct (outcome (save self db)) as [[]|e] eqn:Hout;
    [|by rewrite (save_raise_rolls_back _ _ _ Hout)].
  pose proof (proj1 (domain_save_returns_iff_aux self db) Hout) as [_ Hfree].
  destruct (save_return self db Hout) as (k & _ & -> & Hk). simpl.
  assert (∀ j r', j ≠ k -> rows_before_write self db !! j = Some r' ->
            row_domain r' ≠ domain self) as Hother.
  { intros j r' Hj Hl.
    apply lookup_rows_before_write in Hl as (r & Hl & _ & -> & _).
    apply (Hfree j r Hl). destruct Hk as [->|[-> _]]; congruence. }
  intros k1 k2 r1 r2 H1 H2 Hne.
  apply lookup_insert_Some in H1 as [[<- <-]|[Hn1 H1]];
    apply lookup_insert_Some in H2 as [[<- <-]|[Hn2 H2]]; simpl.
  - done.
  - apply not_eq_sym. by apply (Hother k2 r2).
  - by apply (Hother k1 r1).
  - apply lookup_rows_before_write in H1 as (r1' & Hl1 & _ & -> & _).
    apply lookup_rows_before_write in H2 as (r2' & Hl2 & _ & -> & _).
    by apply (Hu k1 k2).
Qed.

Lemma domain_save_keeps_unique_witness :
  domains_unique (domains sample_db)
  ∧ domains_unique (domains (committed (save new_primary sample_db))).
Proof.
  assert (domains_unique (domains sample_db)) as Hu.
  { assert (map_Forall (fun k1 r1 =>
              map_Forall (fun k2 r2 => k1 ≠ k2 -> row_domain r1 ≠ row_domain r2)
                (domains sample_db)) (domains sample_db)) as Hall
      by (apply (bool_decide_unpack _); vm_compute; exact I).
    intros k1 k2 r1 r2 H1 H2. exact (Hall k1 r1 H1 k2 r2 H2). }
  split; [exact Hu|].
  exact (domain_save_keeps_unique new_primary sample_db Hu).
Defined.

(** X23. Saving again what a save has just stored changes nothing: the second
    save returns, the table and the instance stay as the first save left
    them. *)
Theorem domain_save_idempotent (self : Domain) (db : DB) :
  outcome (save self db) = Return tt ->
  outcome (save (self_after (save self db)) (committed (save self db))) = Return tt
  ∧ committed (save (self_after (save self db)) (committed (save self db)))
    = committed (save self db)
  ∧ self_after (save (self_after (save self db)) (committed (save self db)))
    = self_after (save self db).
Proof.
  intros Hout.
  pose proof (proj1 (domain_save_returns_iff_aux self db) Hout) as [Ht Hfree].
  pose proof (domain_save_sole_primary_aux self db) as Hsole.
  specialize (Hsole) with (1 := Hout).
  destruct (save_return self db Hout) as (k & Hself & Hdb & Hk).
  rewrite Hself, Hdb in Hsole |- *. simpl in Hsole.
  set (p := primary_after self db) in *.
  set (self1 := set_is_primary p self) in *.
  set (rows' := <[k := to_row self1]> (rows_before_write self db)) in *.
  set (db' := {| tenants := tenants db; domains := rows' |}) in *.
  set (self' := set_pk k self1) in *.
  assert (k_not_other : ∀ j, Some j ≠ pk self -> domains db !! j ≠ None -> j ≠ k).
  { intros j Hj Hl. destruct Hk as [Hk|[_ Hk]]; congruence. }
  assert (domain_free self' db') as Hfree'.
  { intros j r Hl Hj. simpl in *.
    assert (j ≠ k) as Hjk by congruence.
    unfold rows' in Hl. rewrite lookup_insert_ne in Hl by done.
    apply lookup_rows_before_write in Hl as (r0 & Hl0 & _ & -> & _).
    apply (Hfree j r0 Hl0). destruct Hk as [->|[-> _]]; congruence. }
  assert (outcome (save self' db') = Return tt) as Hout'
    by (by apply save_succeeds).
  assert (primary_after self' db' = p) as Hp'.
  { destruct p eqn:Hp.
    - apply primary_after_true. by left.
    - apply not_true_is_false. intros [H|H]%primary_after_true; [done|].
      apply H.
      assert (other_primary_exists self db) as (k0 & r0 & Hl & Ht0 & Hpr & Hne).
      { apply exists_domain_list. fold p in Hp. unfold primary_after in p.
        subst p. destruct (exists_ _); [done|]. by destruct (is_primary self). }
      assert (k0 ≠ k) by (apply k_not_other; congruence).
      exists k0, r0. simpl. unfold rows'.
      rewrite lookup_insert_ne by done.
      unfold rows_before_write. fold p. rewrite Hp.
      repeat split; [done..|congruence]. }
  assert (rows_before_write self' db' = rows') as Hrows.
  { unfold rows_before_write. rewrite Hp'. destruct p eqn:Hp; [|done].
    simpl. apply map_eq. intros j. rewrite lookup_update.
    destruct (rows' !! j) as [r|] eqn:Hl; [|done].
    case_decide as Hd; [|done]. simpl in Hd. destruct Hd as (Hd1 & Hd2 & Hd3).
    exfalso. apply Hd3. symmetry. by apply (Hsole j r). }
  destruct (save_return self' db' Hout') as (k' & Hself' & Hdb' & Hk').
  assert (k' = k) as -> by (destruct Hk' as [Hk'|[Hk' _]]; simpl in Hk'; congruence).
  rewrite Hp', Hrows in Hdb'. rewrite Hp' in Hself'.
  split; [done|]. split.
  - rewrite Hdb'. unfold db'. f_equal. apply insert_id.
    unfold rows'. by rewrite lookup_insert_eq.
  - by rewrite Hself'.
Qed.

Lemma domain_save_idempotent_witness :
  outcome (save new_primary sample_db) = Return tt
  ∧ outcome (save (self_after (save new_primary sample_db))
               (committed (save new_primary sample_db))) = Return tt
  ∧ committed (save (self_after (save new_primary sample_db))
                 (committed (save new_primary sample_db)))
    = committed (save new_primary sample_db)
  ∧ self_after (save (self_after (save new_primary sample_db))
                  (committed (save new_primary sample_db)))
    = self_after (save new_primary sample_db).
Proof.
  assert (outcome (save new_primary sample_db) = Return tt) as Hout
    by (vm_compute; reflexivity).
  split; [exact Hout|].
  exact (domain_save_idempotent new_primary sample_db Hout).
Defined.
End DomainRepeat.

(** ** Template tags *)

Section TagFacts.
Import templatetags Labels.

Lemma split_nonempty (sep : Ascii.ascii) (s : string) : split sep s ≠ [].
Proof.
  destruct s as [|a rest]; simpl; [done|].
  destruct (Ascii.eqb a sep); [done|]. by destruct (split sep rest).
Qed.

Lemma split_join_aux (sep : Ascii.ascii) (s : string) :
  String.concat (String sep EmptyString) (split sep s) = s.
Proof.
  induction s as [|a rest IH]; simpl; [done|].
  pose proof (split_nonempty sep rest) as Hne.
  destruct (Ascii.eqb a sep) eqn:Ha.
  - apply Ascii.eqb_eq in Ha as ->.
    destruct (split sep rest) as [|p ps]; [done|].
    change (String.concat (String sep EmptyString) (EmptyString :: p :: ps))
      with (String sep (String.concat (String sep EmptyString) (p :: ps))).
    by rewrite IH.
  - destruct (split sep rest) as [|p ps]; [done|].
    destruct ps as [|q qs].
    + simpl in *. by rewrite IH.
    + change (String.concat (String sep EmptyString) (String a p :: q :: qs))
        with (String a (String.concat (String sep EmptyString) (p :: q :: qs))).
      by rewrite IH.
Qed.

(** Splitting at a separator and joining the pieces with that separator
    gives the string back. *)
Theorem split_join (sep : Ascii.ascii) (s : string) :
  String.concat (String sep EmptyString) (split sep s) = s.
Proof. exact (split_join_aux sep s). Qed.

Lemma split_pieces_without_separator_aux (sep : Ascii.ascii) (s : string) :
  Forall (fun p => contains sep p = false) (split sep s).
Proof.
  induction s as [|a rest IH]; simpl; [by repeat constructor|].
  pose proof (split_nonempty sep rest) as Hne.
  destruct (Ascii.eqb a sep) eqn:Ha.
  - by constructor.
  - destruct (split sep rest) as [|p ps]; [done|].
    apply Forall_cons in IH as [Hp Hps].
    constructor; [|done]. simpl. by rewrite Ha.
Qed.

(** No piece of a split contains the separator. *)
Theorem split_pieces_without_separator (sep : Ascii.ascii) (s : string) :
  Forall (fun p => contains sep p = false) (split sep s).
Proof. exact (split_pieces_without_separator_aux sep s). Qed.

Lemma append_assoc (a b c : string) : (a +:+ b) +:+ c = a +:+ b +:+ c.
Proof.
  induction a as [|x a IH]; [done|].
  change (String x ((a +:+ b) +:+ c) = String x (a +:+ b +:+ c)).
  by f_equal.
Qed.

Lemma concat_snoc (sep : string) (l : list string) (x : string) :
  String.concat sep (l ++ [x]) =
  match l with
  | [] => x
  | _ => String.concat sep l +:+ sep +:+ x
  end.
Proof.
  induction l as [|y l IH]; [done|].
  destruct l as [|z l]; [done|].
  change (String.concat sep ((y :: z :: l) ++ [x]))
    with (y +:+ sep +:+ String.concat sep ((z :: l) ++ [x])).
  rewrite IH.
  change (String.concat sep (y :: z :: l))
    with (y +:+ sep +:+ String.concat sep (z :: l)).
  by rewrite !append_assoc.
Qed.

Lemma contains_app (c : Ascii.ascii) (a b : string) :
  contains c (a +:+ b) = contains c a || contains c b.
Proof.
  induction a as [|x a IH]; [done|].
  change (contains c (String x (a +:+ b))
          = contains c (String x a) || contains c b).
  simpl. by rewrite IH, orb_assoc.
Qed.

(** The last component of a dotted path has no dot in it, and the path is
    that component, alone or after a prefix and a dot. *)
Lemma last_component_spec (s : string) :
  last (split dot s) = Some (last_component s)
  ∧ contains dot (last_component s) = false
  ∧ (s = last_component s
     ∨ ∃ pre, s = pre +:+ String dot EmptyString +:+ last_component s).
Proof.
  unfold last_component.
  pose proof (split_nonempty dot s) as Hne.
  pose proof (split_join_aux dot s) as Hjoin.
  pose proof (split_pieces_without_separator_aux dot s) as Hpieces.
  destruct (last (split dot s)) as [c|] eqn:Hlast;
    [|by apply last_None in Hlast].
  simpl. split; [done|].
  apply last_Some in Hlast as [l Hl]. rewrite Hl in Hjoin, Hpieces.
  split.
  - apply Forall_app in Hpieces as [_ Hc]. by inversion Hc.
  - rewrite concat_snoc in Hjoin. destruct l as [|y l]; [by left|].
    right. eexists. by rewrite <- Hjoin.
Qed.

Lemma get_app_label_falls_back_aux (import_string : string -> imported) (s : string) :
  import_string s = ImportError ∨ import_string s = Object None ->
  get_app_label import_string s = inr (last_component s)
  ∧ contains dot (last_component s) = false
  ∧ (s = last_component s
     ∨ ∃ pre, s = pre +:+ String dot EmptyString +:+ last_component s)
  ∧ (contains dot s = false -> last_component s = s).
Proof.
  intros Himp.
  destruct (last_component_spec s) as (Hlast & Hnodot & Hshape).
  split; [|split; [done|split; [done|]]].
  - unfold get_app_label, item_last. rewrite Hlast.
    by destruct Himp as [-> | ->].
  - intros Hs. destruct Hshape as [<-|(pre & Hpre)]; [done|].
    exfalso. rewrite Hpre, !contains_app in Hs.
    apply orb_false_iff in Hs as [_ Hs]. apply orb_false_iff in Hs as [Hs _].
    vm_compute in Hs. discriminate Hs.
Qed.

(** X26. When the path cannot be imported, or the imported object has no
    [name], [get_app_label] returns the last component of the path: it
    never raises, the label has no dot, and for a path without dots it is
    the path itself. *)
Theorem get_app_label_falls_back (import_string : string -> imported) (s : string) :
  import_string s = ImportError ∨ import_string s = Object None ->
  get_app_label import_string s = inr (last_component s)
  ∧ contains dot (last_component s) = false
  ∧ (s = last_component s
     ∨ ∃ pre, s = pre +:+ String dot EmptyString +:+ last_component s)
  ∧ (contains dot s = false -> last_component s = s).
Proof. exact (get_app_label_falls_back_aux import_string s). Qed.

Lemma get_app_label_falls_back_witness :
  (no_import "django.contrib.auth" = ImportError
   ∨ no_import "django.contrib.auth" = Object None)
  ∧ get_app_label no_import "django.contrib.auth"
      = inr (last_component "django.contrib.auth")
  ∧ contains dot (last_component "django.contrib.auth") = false
  ∧ ("django.contrib.auth" = last_component "django.contrib.auth"
     ∨ ∃ pre, "django.contrib.auth"
              = pre +:+ String dot EmptyString +:+ last_component "django.contrib.auth")
  ∧ (contains dot "django.contrib.auth" = false ->
     last_component "django.contrib.auth" = "django.contrib.auth").
Proof.
  split; [by left|].
  apply (get_app_label_falls_back no_import "django.contrib.auth"). by left.
Defined.

Lemma app_labels_fall_back (import_string : string -> imported) (apps : list string) :
  Forall (fun a => import_string a = ImportError ∨ import_string a = Object None)
    apps ->
  app_labels import_string apps = inr (map last_component apps).
Proof.
  induction 1 as [|a apps Ha _ IH]; simpl; [done|].
  destruct (get_app_label_falls_back_aux import_string a Ha) as [-> _].
  by rewrite IH.
Qed.

(** X27. When none of the listed applications yields a [name] on import, an
    application is counted as shared exactly when its [app_label] is the
    last component of one of the listed paths; an application without
    [app_label] raises [KeyError]. The same holds of [is_tenant_app], which
    runs the same body over [TENANT_APPS]. *)
Theorem is_shared_app_by_last_component
    (import_string : string -> imported) (SHARED_APPS : list string)
    (app : gmap string string) :
  Forall (fun a => import_string a = ImportError ∨ import_string a = Object None)
    SHARED_APPS ->
  match app !! "app_label" with
  | None => is_shared_app import_string SHARED_APPS app = inl (KeyError "app_label")
  | Some l =>
      ∃ b, is_shared_app import_string SHARED_APPS app = inr b
           ∧ is_tenant_app import_string SHARED_APPS app = inr b
           ∧ (b = true ↔ ∃ a, a ∈ SHARED_APPS ∧ last_component a = l)
  end.
Proof.
  intros Hall. unfold is_shared_app, is_tenant_app, app_in.
  destruct (app !! "app_label") as [l|]; [|done].
  rewrite (app_labels_fall_back import_string SHARED_APPS Hall).
  eexists. split; [reflexivity|]. split; [reflexivity|].
  rewrite bool_decide_eq_true, list_elem_of_fmap. split.
  - intros (a & -> & Ha). by exists a.
  - intros (a & Ha & <-). by exists a.
Qed.

Lemma is_shared_app_by_last_component_witness :
  Forall (fun a => no_import a = ImportError ∨ no_import a = Object None)
    ["django.contrib.auth"; "customers"]
  ∧ match ({[ "app_label" := "auth" ]} : gmap string string) !! "app_label" with
    | None => is_shared_app no_import ["django.contrib.auth"; "customers"]
                {[ "app_label" := "auth" ]} = inl (KeyError "app_label")
    | Some l =>
        ∃ b, is_shared_app no_import ["django.contrib.auth"; "customers"]
               {[ "app_label" := "auth" ]} = inr b
             ∧ is_tenant_app no_import ["django.contrib.auth"; "customers"]
                 {[ "app_label" := "auth" ]} = inr b
             ∧ (b = true ↔ ∃ a, a ∈ ["django.contrib.auth"; "customers"]
                                ∧ last_component a = l)
    end.
Proof.
  assert (Forall (fun a => no_import a = ImportError ∨ no_import a = Object None)
            ["django.contrib.auth"; "customers"]) as Hall
    by (repeat constructor; by left).
  split; [exact Hall|].
  exact (is_shared_app_by_last_component no_import
           ["django.contrib.auth"; "customers"] {[ "app_label" := "auth" ]} Hall).
Defined.

(** An application configuration that can be imported and has a [name]
    decides the label, whatever the path looks like. *)
Theorem get_app_label_prefers_name
    (import_string : string -> imported) (s n : string) :
  import_string s = Object (Some n) ->
  get_app_label import_string s = inr n.
Proof.
  intros Himp. unfold get_app_label, item_last.
  destruct (last_component_spec s) as (-> & _). by rewrite Himp.
Qed.

Lemma get_app_label_prefers_name_witness :
  one_config "customers.apps.CustomersConfig" = Object (Some "customers")
  ∧ get_app_label one_config "customers.apps.CustomersConfig" = inr "customers".
Proof.
  split; [reflexivity|].
  apply (get_app_label_prefers_name one_config). reflexivity.
Defined.
End TagFacts.
